(** * Py4HPC: the numeric kernels of the Numba notebooks

    A shallow embedding of the Python functions defined in
    [notebooks/02_numba_intro.ipynb] and [notebooks/03_numba_blond.ipynb],
    and the properties the notebooks rely on.

    Conventions of the model.
    - A float (Python [float], numpy [float64]) is a real number: the
      arithmetic is the exact one and [sin], [exp], [sqrt] and [floor] are
      the mathematical functions, in [math] as in numpy, so "equal within
      floating-point tolerance" is stated as equality of the exact
      results.  Infinities and NaN have no counterpart here.
    - A one-dimensional numpy array is a [list R] stored in a heap under a
      location; a Python name holding an array holds its location.  Two
      names may hold the same location (aliasing).
    - A Python function is a computation in the monad [Py.M]: it takes the
      heap, and gives an outcome (a returned value or a raised exception)
      together with the heap it leaves behind. *)

From Stdlib Require Import Reals Lra Lia ZArith String.
From stdpp Require Import base option list gmap.

#[global] Instance R_eq_dec : EqDecision R := Req_dec_T.
#[global] Instance Rle_decision (x y : R) : Decision (x <= y)%R := Rle_dec x y.
#[global] Instance Rlt_decision (x y : R) : Decision (x < y)%R := Rlt_dec x y.

(** ** The Python run-time: exceptions, heap of arrays, loops *)

Module Py.

Inductive exn : Set :=
| ZeroDivisionError   (* float division by zero *)
| IndexError          (* index out of bounds *)
| ValueError          (* math domain error, shapes that do not broadcast *)
| TypeError.          (* the name does not hold an array *)

Inductive outcome (A : Type) : Type :=
| Return (a : A)
| Raise (e : exn).
Arguments Return {A} a.
Arguments Raise {A} e.

Abbreviation loc := positive.
Abbreviation heap := (gmap positive (list R)).

Definition M (A : Type) : Type := heap -> outcome A * heap.

Definition ret {A} (a : A) : M A := fun h => (Return a, h).
Definition raise {A} (e : exn) : M A := fun h => (Raise e, h).
Definition bind {A B} (m : M A) (k : A -> M B) : M B :=
  fun h =>
    match m h with
    | (Return a, h') => k a h'
    | (Raise e, h') => (Raise e, h')
    end.
Definition lift {A} (o : outcome A) : M A := fun h => (o, h).

Declare Scope py_scope.
Delimit Scope py_scope with py.
Notation "x <- m ;; k" := (bind m (fun x => k))
  (at level 90, m at level 80, right associativity) : py_scope.
Notation "m ;;; k" := (bind m (fun _ => k))
  (at level 90, right associativity) : py_scope.
Local Open Scope py_scope.

(** The array a name holds. *)
Definition load (a : loc) : M (list R) :=
  fun h => match h !! a with
           | Some xs => (Return xs, h)
           | None => (Raise TypeError, h)
           end.

(** [a[:] = xs]: the array at [a] gets new contents; the store is in
    place, every name holding [a] sees it. *)
Definition store (a : loc) (xs : list R) : M unit :=
  fun h => match h !! a with
           | Some _ => (Return tt, <[a := xs]> h)
           | None => (Raise TypeError, h)
           end.

(** A new array, under a location no name holds yet. *)
Definition alloc (xs : list R) : M loc :=
  fun h => let a := fresh (dom h) in (Return a, <[a := xs]> h).

(** [len(a)] *)
Definition len (a : loc) : M nat :=
  xs <- load a ;; ret (length xs).

(** Python's index rule on a sequence of [n] elements: [0 .. n-1] as they
    are, [-n .. -1] counted from the end, anything else is out of
    bounds. *)
Definition norm_index (n : nat) (i : Z) : option nat :=
  if decide (0 <= i < Z.of_nat n)%Z then Some (Z.to_nat i)
  else if decide (- Z.of_nat n <= i < 0)%Z then Some (Z.to_nat (i + Z.of_nat n))
  else None.

(** [a[i]] *)
Definition getitem (a : loc) (i : Z) : M R :=
  xs <- load a ;;
  match norm_index (length xs) i with
  | Some k => match xs !! k with
              | Some x => ret x
              | None => raise IndexError
              end
  | None => raise IndexError
  end.

(** [a[i] = v] *)
Definition setitem (a : loc) (i : Z) (v : R) : M unit :=
  xs <- load a ;;
  match norm_index (length xs) i with
  | Some k => store a (<[k := v]> xs)
  | None => raise IndexError
  end.

(** [range(n)] *)
Definition range (n : nat) : list Z := map Z.of_nat (seq 0 n).

(** [for x in xs: s = body(x, s)], with the local variables the body
    assigns threaded as [s]; an exception in the body ends the loop. *)
Fixpoint for_fold {A S} (xs : list A) (body : A -> S -> M S) (s : S) : M S :=
  match xs with
  | [] => ret s
  | x :: xs' => s' <- body x s ;; for_fold xs' body s'
  end.

(** [for x in xs: body(x)] *)
Definition for_each {A} (xs : list A) (body : A -> M unit) : M unit :=
  for_fold xs (fun x _ => body x) tt.

(** Scalar float division [x / y] of Python floats. *)
Definition truediv (x y : R) : outcome R :=
  if decide (y = 0%R) then Raise ZeroDivisionError else Return (x / y)%R.

(** [math.sqrt(x)] *)
Definition math_sqrt (x : R) : outcome R :=
  if decide (x < 0)%R then Raise ValueError else Return (sqrt x).

(** [int(x)] of a float: truncation towards zero. *)
Definition int (x : R) : Z :=
  if decide (0 <= x)%R then Zfloor x else (- Zfloor (- x))%Z.

End Py.

(** ** The part of numpy the notebooks use, on one-dimensional float arrays *)

Module Np.
Import Py.
Local Open Scope py_scope.
Local Open Scope R_scope.

(** Universal functions act on every element and give a new array. *)
Definition np_sin (x : list R) : list R := map sin x.
Definition np_exp (x : list R) : list R := map exp x.
Definition np_abs (x : list R) : list R := map Rabs x.
Definition np_floor (x : list R) : list R := map (fun v => IZR (Zfloor v)) x.
(** [np.sqrt] raises nothing: of a negative number it is NaN, which the
    model does not have; there the value below stands for none that numpy
    gives. *)
Definition np_sqrt (x : list R) : list R := map sqrt x.
(** [-x] and [x ** n] *)
Definition neg (x : list R) : list R := map Ropp x.
Definition power (x : list R) (n : nat) : list R := map (fun v => v ^ n) x.

(** numpy's [/]: by zero it gives inf or NaN and a warning, no exception.
    Those values are not in the model: at a zero divisor the value below
    stands for none that numpy gives. *)
Definition divide (x y : R) : R := x / y.

(** An array and a scalar: [c op x] and [x op c]. *)
Definition s_op (op : R -> R -> R) (c : R) (x : list R) : list R := map (op c) x.
Definition op_s (op : R -> R -> R) (x : list R) (c : R) : list R :=
  map (fun v => op v c) x.

(** Two arrays, with numpy's broadcasting of one-dimensional shapes: equal
    lengths go element by element, a length of one is stretched, anything
    else does not broadcast. *)
Definition broadcast (op : R -> R -> R) (x y : list R) : outcome (list R) :=
  if decide (length x = length y) then Return (zip_with op x y)
  else match x, y with
       | _, [c] => Return (op_s op x c)
       | [c], _ => Return (s_op op c y)
       | _, _ => Raise ValueError
       end.

(** In-place [a op= y] with an array [y]: the result must have the shape
    of [a]. *)
Definition inplace (op : R -> R -> R) (a : loc) (y : list R) : M unit :=
  x <- load a ;;
  if decide (length y = length x) then store a (zip_with op x y)
  else match y with
       | [c] => store a (op_s op x c)
       | _ => raise ValueError
       end.

(** In-place [a op= c] with a scalar [c]. *)
Definition inplace_s (op : R -> R -> R) (a : loc) (c : R) : M unit :=
  x <- load a ;; store a (op_s op x c).

(** [x[i]] on an array that no other name holds. *)
Definition item (x : list R) (i : Z) : M R :=
  match norm_index (length x) i with
  | Some k => match x !! k with
              | Some v => ret v
              | None => raise IndexError
              end
  | None => raise IndexError
  end.

(** [np.empty_like(a)]: a new array of the length of [a]; its contents are
    whatever the memory held, here [junk]. *)
Definition empty_like (junk : nat -> R) (a : loc) : M loc :=
  x <- load a ;; alloc (map junk (seq 0 (length x))).

(** [np.histogram(x, bins=n, range=(lo, hi))] as numpy documents it:
    [n] bins of equal width over [lo, hi], each closed on the left and
    open on the right, but the last one, which holds [hi] too; the
    counts and the [n + 1] edges are new arrays. *)
Definition histogram_edges (n : nat) (lo hi : R) : list R :=
  map (fun i => lo + INR i * (hi - lo) / INR n) (seq 0 (S n)).
Definition histogram_count (x : list R) (n : nat) (lo hi : R) (b : nat) : R :=
  let l := lo + INR b * (hi - lo) / INR n in
  let r := lo + INR (S b) * (hi - lo) / INR n in
  INR (length (filter (fun v => l <= v /\ (v < r \/ (S b = n /\ v <= hi))) x)).
Definition histogram (x : list R) (n : nat) (range : R * R)
  : outcome (list R * list R) :=
  let (lo, hi) := range in
  if decide (n = 0%nat) then Raise ValueError
  else if decide (hi < lo) then Raise ValueError
  else
    let (lo', hi') := if decide (lo = hi) then (lo - / 2, hi + / 2) else (lo, hi) in
    Return (map (histogram_count x n lo' hi') (seq 0 n), histogram_edges n lo' hi').

End Np.

(** ** notebooks/02_numba_intro.ipynb *)

Module NumbaIntro.
Import Py Np.
Local Open Scope py_scope.
Local Open Scope R_scope.

(** <<
    def average_unrolled(arr):
        total = 0.0
        for elem in arr:
            total += elem
        total /= len(arr)
        return total
    >>
    Nothing is stored while the loop runs, so the elements it visits are
    the ones the array holds on entry.  The divisor is zero on the empty
    array only, and there [total] is still the Python float [0.0], whose
    division raises. *)
Definition average_unrolled (arr : loc) : M R :=
  elems <- load arr ;;
  total <- for_fold elems (fun elem total => ret (total + elem)) 0 ;;
  n <- len arr ;;
  lift (truediv total (INR n)).

(** <<
    def kick_unrolled(dt, dE, voltage, omega, phi, acc_kick):
        for i in range(len(dt)):
            dE[i] += voltage * math.sin(omega * dt[i] + phi) + acc_kick
    >>
    The augmented assignment reads [dE[i]], then evaluates the right-hand
    side, then stores the sum. *)
Definition kick_unrolled (dt dE : loc) (voltage omega phi acc_kick : R) : M unit :=
  n <- len dt ;;
  for_each (range n) (fun i =>
    e <- getitem dE i ;;
    d <- getitem dt i ;;
    setitem dE i (e + (voltage * sin (omega * d + phi) + acc_kick))).

(** <<
    def kick_numpy(dt, dE, voltage, omega, phi, acc_kick):
        dE += voltage * np.sin(omega * dt + phi) + acc_kick
    >> *)
Definition kick_numpy (dt dE : loc) (voltage omega phi acc_kick : R) : M unit :=
  d <- load dt ;;
  inplace Rplus dE
    (op_s Rplus (s_op Rmult voltage (np_sin (op_s Rplus (s_op Rmult omega d) phi)))
          acc_kick).

(** The module's global variables that are assigned more than once. *)
Record globals : Set := { secure_pass : string }.

(** [secure_pass = '1234'], and later [secure_pass = '5678'] *)
Definition assign_secure_pass (v : string) (g : globals) : globals :=
  {| secure_pass := v |}.

(** <<
    def get_access(input_pass):
        if secure_pass == input_pass:
            return 'Access Granted!'
        else:
            return 'Access Denied!'
    >>
    The global is looked up when the body runs. *)
Definition get_access (input_pass : string) (g : globals) : string :=
  if String.eqb (secure_pass g) input_pass
  then "Access Granted!"%string
  else "Access Denied!"%string.

(** <<
    def standard_normal_pdf(x):
        return math.exp(-x**2/2.) / math.sqrt(2*math.pi)
    >> *)
Definition standard_normal_pdf (x : R) : M R :=
  let e := exp (- x ^ 2 / 2) in
  s <- lift (math_sqrt (2 * PI)) ;;
  lift (truediv e s).

(** <<
    def numpy_pdf(x):
        return np.exp(-x**2/2.) / np.sqrt(2*math.pi)
    >> *)
Definition numpy_pdf (x : loc) : M loc :=
  v <- load x ;;
  alloc (op_s divide (np_exp (op_s divide (neg (power v 2)) 2)) (sqrt (2 * PI))).

(** <<
    def unrolled_discriminant(A, B, C):
        X = np.empty_like(A)
        for i in range(len(A)):
            X[i] = (-B[i] + math.sqrt(abs(B[i]**2 - 4 * A[i] * C[i])) ) / (2*A[i])
        return X
    >>
    The elements read are numpy scalars, so the division is numpy's.  An
    element read twice in the expression is the same value both times:
    nothing is stored before the expression is evaluated. *)
Definition unrolled_discriminant (junk : nat -> R) (A B C : loc) : M loc :=
  X <- empty_like junk A ;;
  n <- len A ;;
  for_each (range n) (fun i =>
    b <- getitem B i ;;
    a <- getitem A i ;;
    c <- getitem C i ;;
    s <- lift (math_sqrt (Rabs (b ^ 2 - 4 * a * c))) ;;
    setitem X i (divide (- b + s) (2 * a))) ;;;
  ret X.

(** <<
    def numpy_discriminant(A, B, C):
        return (-B + np.sqrt(np.abs(B**2 - 4 * A * C)))/(2 * A)
    >> *)
Definition numpy_discriminant (A B C : loc) : M loc :=
  b <- load B ;;
  a <- load A ;;
  c <- load C ;;
  ac <- lift (broadcast Rmult (s_op Rmult 4 a) c) ;;
  d <- lift (broadcast Rminus (power b 2) ac) ;;
  num <- lift (broadcast Rplus (neg b) (np_sqrt (np_abs d))) ;;
  x <- lift (broadcast divide num (s_op Rmult 2 a)) ;;
  alloc x.

(** <<
    def discriminant(a, b, c):
        return (-b + math.sqrt(abs(b**2 - 4 * a * c))) / (2*a)
    >>
    On Python floats; the division raises at zero. *)
Definition discriminant (a b c : R) : M R :=
  s <- lift (math_sqrt (Rabs (b ^ 2 - 4 * a * c))) ;;
  lift (truediv (- b + s) (2 * a)).

(** <<
    vec_pdf = vectorize()(standard_normal_pdf)
    >>
    On one element the compiled function computes what the function it
    wraps computes. *)
Definition vec_pdf (x : R) : M R := standard_normal_pdf x.

(** <<
    def unrolled_pdf(x_arr):
        ret_arr = np.empty_like(x_arr)
        for i in range(len(x_arr)):
            ret_arr[i] = vec_pdf(x_arr[i])
        return ret_arr
    >> *)
Definition unrolled_pdf (junk : nat -> R) (x_arr : loc) : M loc :=
  ret_arr <- empty_like junk x_arr ;;
  n <- len x_arr ;;
  for_each (range n) (fun i =>
    x <- getitem x_arr i ;;
    v <- vec_pdf x ;;
    setitem ret_arr i v) ;;;
  ret ret_arr.

(** The values the notebook passes to [add]: integers, floats, strings
    and instances of the class [Point], whose two attributes are values
    again.
    <<
    class Point:
        def __init__(self, x = 0, y = 0):
            self.x = x
            self.y = y
    >> *)
Inductive value : Type :=
| Int (z : Z)
| Float (x : R)
| Str (s : string)
| Point (x y : value).

(** [Point(x, y)], with the defaults of [__init__] for what is left out. *)
Definition Point_init (x y : option value) : value :=
  Point (default (Int 0) x) (default (Int 0) y).

(** What [+] raises on these values. *)
Inductive add_error : Set :=
| UnsupportedOperand   (* TypeError *)
| NoAttribute.         (* AttributeError *)

(** The operator [a + b].  Numbers add, an integer becoming a float beside
    a float; strings concatenate; a [Point] on the left runs
    <<
        def __add__(self, other):
            x = self.x + other.x
            y = self.y + other.y
            return Point(x, y)
    >>
    where reading [other.x] fails when [other] is no [Point]; anything else
    is an unsupported pair of operands ([Point] has no [__radd__]). *)
Fixpoint binary_add (a b : value) : add_error + value :=
  match a, b with
  | Int x, Int y => inr (Int (x + y))
  | Int x, Float y => inr (Float (IZR x + y))
  | Float x, Int y => inr (Float (x + IZR y))
  | Float x, Float y => inr (Float (x + y))
  | Str s, Str t => inr (Str (s ++ t))
  | Point x1 y1, Point x2 y2 =>
      match binary_add x1 x2 with
      | inr x =>
          match binary_add y1 y2 with
          | inr y => inr (Point x y)
          | inl e => inl e
          end
      | inl e => inl e
      end
  | Point _ _, _ => inl NoAttribute
  | _, _ => inl UnsupportedOperand
  end.

(** <<
    def add(a, b):
        return a + b
    >> *)
Definition add (a b : value) : add_error + value := binary_add a b.

End NumbaIntro.

(** ** notebooks/03_numba_blond.ipynb *)

Module NumbaBlond.
Import Py Np.
Local Open Scope py_scope.
Local Open Scope R_scope.

(** [n_iter = 10], a global that is assigned once. *)
Definition n_iter : nat := 10.

(** <<
    def kick_numpy(dt, dE, voltage, omega, phi, acc_kick):
        for j in range(len(voltage)):
            dE += voltage[j] * np.sin(omega[j] * dt + phi[j])
        dE += acc_kick
    >>
    Here [voltage], [omega] and [phi] are arrays, one entry per RF
    station. *)
Definition kick_numpy (dt dE voltage omega phi : loc) (acc_kick : R) : M unit :=
  n <- len voltage ;;
  for_each (range n) (fun j =>
    v <- getitem voltage j ;;
    w <- getitem omega j ;;
    d <- load dt ;;
    p <- getitem phi j ;;
    inplace Rplus dE (s_op Rmult v (np_sin (op_s Rplus (s_op Rmult w d) p)))) ;;;
  inplace_s Rplus dE acc_kick.

(** <<
    def drift_numpy(dt, dE, T0, length_ratio, beta, energy, alpha_zero,
                    alpha_one, alpha_two):
        inv_beta_sq = 1. / beta**2
        inv_ene_sq = 1. / energy**2
        beam_delta = np.sqrt(1. +
                             inv_beta_sq * (dE**2 * inv_ene_sq + 2 * dE/energy)) - 1.
        dt += T0 * length_ratio * (
            (1 + alpha_zero * beam_delta +
             alpha_one * (beam_delta**2) +
             alpha_two * beam_delta**3) *
            (1 + dE/energy) / (1 + beam_delta) - 1)
    >>
    The scalars are Python floats. *)
Definition drift_numpy (dt dE : loc)
    (T0 length_ratio beta energy alpha_zero alpha_one alpha_two : R) : M unit :=
  inv_beta_sq <- lift (truediv 1 (beta ^ 2)) ;;
  inv_ene_sq <- lift (truediv 1 (energy ^ 2)) ;;
  e <- load dE ;;
  t <- lift (broadcast Rplus (op_s Rmult (power e 2) inv_ene_sq)
                             (op_s divide (s_op Rmult 2 e) energy)) ;;
  let beam_delta := op_s Rminus (np_sqrt (s_op Rplus 1 (s_op Rmult inv_beta_sq t))) 1 in
  p1 <- lift (broadcast Rplus (s_op Rplus 1 (s_op Rmult alpha_zero beam_delta))
                              (s_op Rmult alpha_one (power beam_delta 2))) ;;
  p <- lift (broadcast Rplus p1 (s_op Rmult alpha_two (power beam_delta 3))) ;;
  e' <- load dE ;;
  q <- lift (broadcast Rmult p (s_op Rplus 1 (op_s divide e' energy))) ;;
  r <- lift (broadcast divide q (s_op Rplus 1 beam_delta)) ;;
  inplace Rplus dt (s_op Rmult (T0 * length_ratio) (op_s Rminus r 1)).

(** <<
    def histo_numpy(dt, profile, cut_left, cut_right):
        profile, _ = np.histogram(dt, bins=len(profile),
                                  range=(cut_left, cut_right))
    >>
    The assignment binds the local name [profile] to the new array of
    counts; the name is dropped when the function returns. *)
Definition histo_numpy (dt profile : loc) (cut_left cut_right : R) : M unit :=
  d <- load dt ;;
  bins <- len profile ;;
  res <- lift (histogram d bins (cut_left, cut_right)) ;;
  let '(profile, _) := res in
  ret tt.

(** <<
    def loop_numpy(dt, dE, profile, cut_left, cut_right, voltage, omega, phi,
                   acc_kick, T0, length_ratio, beta, energy,
                   alpha_zero, alpha_one, alpha_two):
        for i in range(n_iter):
            kick_numpy(dt, dE, voltage, omega, phi, acc_kick)
            drift_numpy(dt, dE, T0, length_ratio, beta, energy, alpha_zero, alpha_one, alpha_two)
            profile *= 0.0
            histo_numpy(dt, profile, cut_left, cut_right)
    >> *)
Definition loop_numpy (dt dE profile : loc) (cut_left cut_right : R)
    (voltage omega phi : loc)
    (acc_kick T0 length_ratio beta energy alpha_zero alpha_one alpha_two : R)
  : M unit :=
  for_each (range n_iter) (fun i =>
    kick_numpy dt dE voltage omega phi acc_kick ;;;
    drift_numpy dt dE T0 length_ratio beta energy alpha_zero alpha_one alpha_two ;;;
    inplace_s Rmult profile 0 ;;;
    histo_numpy dt profile cut_left cut_right).

(** <<
    def histo_unrolled(dt, profile, cut_left, cut_right):
        inv_bin_width = len(profile) / (cut_right - cut_left)
        target_bin = np.floor((dt - cut_left) * inv_bin_width)
        for i in range(len(target_bin)):
            if target_bin[i] >= 0 and target_bin[i] < len(profile):
                profile[int(target_bin[i])] += 1.0
    >>
    With Python floats for the cuts the first division raises when they
    are equal; with numpy floats it gives inf, which the model does not
    have.  The properties below take the cuts distinct. *)
Definition histo_unrolled (dt profile : loc) (cut_left cut_right : R) : M unit :=
  n <- len profile ;;
  inv_bin_width <- lift (truediv (INR n) (cut_right - cut_left)) ;;
  d <- load dt ;;
  let target_bin := np_floor (op_s Rmult (op_s Rminus d cut_left) inv_bin_width) in
  for_each (range (length target_bin)) (fun i =>
    t <- item target_bin i ;;
    if decide (0 <= t) then
      t' <- item target_bin i ;;
      m <- len profile ;;
      if decide (t' < INR m) then
        t'' <- item target_bin i ;;
        let k := int t'' in
        c <- getitem profile k ;;
        setitem profile k (c + 1)
      else ret tt
    else ret tt).

(** <<
    kick_jit = njit()(kick_numpy)
    drift_jit = njit()(drift_numpy)
    histo_jit = njit()(histo_numpy)
    kick_jit_parallel = njit(parallel=True)(kick_numpy)
    drift_jit_parallel = njit(parallel=True)(drift_numpy)
    histo_jit_parallel = njit(parallel=True)(histo_numpy)
    ...
    histo_jit_parallel = njit(parallel=True)(histo_unrolled)
    >>
    The compiled kernels are what the compiler makes of them, and the names
    are globals, looked up when a loop runs: the loops below take them as
    arguments. *)
Section Compiled.
Variable kick_kernel : loc -> loc -> loc -> loc -> loc -> R -> M unit.
Variable drift_kernel : loc -> loc -> R -> R -> R -> R -> R -> R -> R -> M unit.
Variable histo_kernel : loc -> loc -> R -> R -> M unit.

(** <<
    def loop_jit(dt, dE, profile, cut_left, cut_right, voltage, omega, phi,
                 acc_kick, T0, length_ratio, beta, energy,
                 alpha_zero, alpha_one, alpha_two):
        for i in range(n_iter):
            kick_jit(dt, dE, voltage, omega, phi, acc_kick)
            drift_jit(dt, dE, T0, length_ratio, beta, energy,
                      alpha_zero, alpha_one, alpha_two)
            profile *= 0.0
            histo_jit(dt, profile, cut_left, cut_right)
    >>
    with [kick_kernel], [drift_kernel] and [histo_kernel] for what
    [kick_jit], [drift_jit] and [histo_jit] hold. *)
Definition loop_jit (dt dE profile : loc) (cut_left cut_right : R)
    (voltage omega phi : loc)
    (acc_kick T0 length_ratio beta energy alpha_zero alpha_one alpha_two : R)
  : M unit :=
  for_each (range n_iter) (fun i =>
    kick_kernel dt dE voltage omega phi acc_kick ;;;
    drift_kernel dt dE T0 length_ratio beta energy alpha_zero alpha_one alpha_two ;;;
    inplace_s Rmult profile 0 ;;;
    histo_kernel dt profile cut_left cut_right).

(** <<
    def loop_jit_parallel(dt, dE, profile, cut_left, cut_right, voltage, omega, phi,
                       acc_kick, T0, length_ratio, beta, energy,
                       alpha_zero, alpha_one, alpha_two):
        for i in range(n_iter):
            kick_jit_parallel(dt, dE, voltage, omega, phi, acc_kick)
            drift_jit_parallel(dt, dE, T0, length_ratio, beta, energy,
                            alpha_zero, alpha_one, alpha_two)
            profile *= 0.0
            histo_jit_parallel(dt, profile, cut_left, cut_right)
    >>
    with the three kernels for what [kick_jit_parallel],
    [drift_jit_parallel] and [histo_jit_parallel] hold. *)
Definition loop_jit_parallel (dt dE profile : loc) (cut_left cut_right : R)
    (voltage omega phi : loc)
    (acc_kick T0 length_ratio beta energy alpha_zero alpha_one alpha_two : R)
  : M unit :=
  for_each (range n_iter) (fun i =>
    kick_kernel dt dE voltage omega phi acc_kick ;;;
    drift_kernel dt dE T0 length_ratio beta energy alpha_zero alpha_one alpha_two ;;;
    inplace_s Rmult profile 0 ;;;
    histo_kernel dt profile cut_left cut_right).

End Compiled.

End NumbaBlond.

(** ** What the properties are stated with *)

Module Spec.
Import Py.
Local Open Scope py_scope.

(** [m] run [n] times in a row. *)
Fixpoint times (n : nat) (m : M unit) : M unit :=
  match n with
  | O => ret tt
  | S n' => m ;;; times n' m
  end.

(** The computation [m] stores only into arrays whose location satisfies
    [P], and changes the length of none, however it ends. *)
Definition writes_within {A} (P : loc -> Prop) (m : M A) : Prop :=
  forall (h : heap) (l : loc),
    length <$> (m h).2 !! l = length <$> h !! l /\
    (~ P l -> (m h).2 !! l = h !! l).

Local Open Scope R_scope.

(** The sum of the elements of an array. *)
Definition total (xs : list R) : R := foldr Rplus 0 xs.

(** A function of three scalars applied to the elements of three arrays,
    one index after the other. *)
Fixpoint elementwise3 (f : R -> R -> R -> M R) (A B C : list R) : M (list R) :=
  match A, B, C with
  | a :: A', b :: B', c :: C' =>
      x <- f a b c ;; xs <- elementwise3 f A' B' C' ;; ret (x :: xs)
  | _, _, _ => ret []
  end.

(** The value of the normal density at [x]. *)
Definition pdf (x : R) : R := exp (- x ^ 2 / 2) / sqrt (2 * PI).

(** One root of [a x^2 + b x + c], with the absolute value of the
    discriminant under the root. *)
Definition root (a b c : R) : R :=
  (- b + sqrt (Rabs (b ^ 2 - 4 * a * c))) / (2 * a).

(** [root] on the elements of three arrays. *)
Fixpoint roots (A B C : list R) : list R :=
  match A, B, C with
  | a :: A', b :: B', c :: C' => root a b c :: roots A' B' C'
  | _, _, _ => []
  end.

(** The bin of the particle at time [t], of [n] bins between the cuts. *)
Definition bin_of (n : nat) (cut_left cut_right t : R) : Z :=
  Zfloor ((t - cut_left) * INR n / (cut_right - cut_left)).

(** How many of the particles fall in bin [b]. *)
Definition bin_count (n : nat) (cut_left cut_right : R) (dt : list R) (b : nat) : nat :=
  length (filter (fun t => bin_of n cut_left cut_right t = Z.of_nat b) dt).

(** The profile [vp] after the particles [ts] have been counted: every bin
    gains the number of particles that fall in it. *)
Definition counted (n : nat) (cut_left cut_right : R) (ts vp : list R) : list R :=
  imap (fun b c => c + INR (bin_count n cut_left cut_right ts b)) vp.

(** What the kick of notebook 02 adds to the energy of a particle at time
    [d]. *)
Definition gain (voltage omega phi acc_kick d : R) : R :=
  voltage * sin (omega * d + phi) + acc_kick.

(** The RF stations that three arrays describe: a voltage, a frequency and
    a phase each. *)
Definition stations (voltage omega phi : list R) : list (R * R * R) :=
  zip_with pair (zip_with pair voltage omega) phi.

(** The energy [e] of a particle at time [d] after the kick of the RF
    stations, taken in their order, and of [acc_kick]. *)
Definition kicked (sts : list (R * R * R)) (acc_kick d e : R) : R :=
  fold_left (fun acc '(v, w, p) => acc + v * sin (w * d + p)) sts e + acc_kick.

(** The time [t] of a particle of energy [e] after the drift. *)
Definition drifted (T0 length_ratio beta energy alpha_zero alpha_one alpha_two
    e t : R) : R :=
  let delta :=
    sqrt (1 + 1 / beta ^ 2 * (e ^ 2 * (1 / energy ^ 2) + 2 * e / energy)) - 1 in
  t + T0 * length_ratio *
      ((1 + alpha_zero * delta + alpha_one * delta ^ 2 + alpha_two * delta ^ 3)
       * (1 + e / energy) / (1 + delta) - 1).

(** One turn on the times and the energies of the particles: the kick,
    then the drift with the new energies. *)
Definition turn (sts : list (R * R * R))
    (acc_kick T0 length_ratio beta energy alpha_zero alpha_one alpha_two : R)
    (s : list R * list R) : list R * list R :=
  let vE' := zip_with (kicked sts acc_kick) s.1 s.2 in
  (zip_with (drifted T0 length_ratio beta energy alpha_zero alpha_one alpha_two) vE' s.1,
   vE').

(** The four steps of one iteration of the tracking loop, in their order. *)
Definition iteration (dt dE profile : loc) (cut_left cut_right : R)
    (voltage omega phi : loc)
    (acc_kick T0 length_ratio beta energy alpha_zero alpha_one alpha_two : R)
  : M unit :=
  NumbaBlond.kick_numpy dt dE voltage omega phi acc_kick ;;;
  NumbaBlond.drift_numpy dt dE T0 length_ratio beta energy
    alpha_zero alpha_one alpha_two ;;;
  Np.inplace_s Rmult profile 0 ;;;
  NumbaBlond.histo_numpy dt profile cut_left cut_right.

(** The heap [h] with the three arrays of the tracking loop replaced. *)
Definition with_beam (h : heap) (dt dE profile : loc) (vt vE vp : list R) : heap :=
  <[profile := vp]> (<[dt := vt]> (<[dE := vE]> h)).

End Spec.

(** ** Small heaps to run the functions on *)

Module Sample.
Import Py.
Local Open Scope R_scope.

(** [dt = np.array([0.0])] at 1, [profile = np.zeros(1)] at 2. *)
Definition one_particle : heap := <[1%positive := [0]]> (<[2%positive := [0]]> ∅).

(** Two particles: [dt = np.array([0.0, 5.0])] at 1 and
    [dE = np.array([7.0, 8.0])] at 2. *)
Definition two_particles : heap :=
  <[1%positive := [0; 5]]> (<[2%positive := [7; 8]]> ∅).

(** The arrays of a tracking loop with two particles, two bins and one RF
    station: [dt] at 1, [dE] at 2, [profile] at 3, [voltage] at 4, [omega]
    at 5, [phi] at 6. *)
Definition beam : heap :=
  <[1%positive := [0; 5]]> (<[2%positive := [7; 8]]> (<[3%positive := [4; 9]]>
  (<[4%positive := [6]]> (<[5%positive := [2]]> (<[6%positive := [0]]> ∅))))).

(** The coefficients [A = [1, 2]] at 1, [B = [0, 1]] at 2 and
    [C = [-1, -3]] at 3 of two polynomials. *)
Definition polynomials : heap :=
  <[1%positive := [1; 2]]> (<[2%positive := [0; 1]]> (<[3%positive := [-1; -3]]> ∅)).

(** Arrays of different lengths: three elements at 1, two at 2, one at 3
    and none at 4. *)
Definition ragged : heap :=
  <[1%positive := [1; 2; 3]]> (<[2%positive := [4; 5]]> (<[3%positive := [6]]>
  (<[4%positive := []]> ∅))).

(** A beam at rest: times at 1, energies, all zero, at 2. *)
Definition at_rest : heap := <[1%positive := [3; 4]]> (<[2%positive := [0; 0]]> ∅).

End Sample.

(** ** What the further properties are stated with *)

Module Laws.
Import Py.
Local Open Scope py_scope.

(** A computation that changes the heap only when it returns. *)
Definition all_or_nothing {A} (m : M A) : Prop :=
  forall (h h' : heap) (e : exn), m h = (Raise e, h') -> h' = h.

(** How many of the particles lie between the cuts, the left one
    included. *)
Definition in_range_count (cut_left cut_right : R) (dt : list R) : nat :=
  length (filter (fun t => (cut_left <= t < cut_right)%R) dt).

(** Two values of one shape, built from integers and points only. *)
Fixpoint same_shape (a b : NumbaIntro.value) : Prop :=
  match a, b with
  | NumbaIntro.Int _, NumbaIntro.Int _ => True
  | NumbaIntro.Point x1 y1, NumbaIntro.Point x2 y2 => same_shape x1 x2 /\ same_shape y1 y2
  | _, _ => False
  end.

(** The profile of [n] bins that counts the particles at the times [ts]. *)
Definition histogram (n : nat) (cut_left cut_right : R) (ts : list R) : list R :=
  map (fun b => INR (Spec.bin_count n cut_left cut_right ts b)) (seq 0 n).

End Laws.

(** ** Reasoning about computations *)

Section Steps.
Import Py.
Local Open Scope py_scope.

Lemma bind_return {A B} (m : M A) (k : A -> M B) h a h' :
  m h = (Return a, h') -> bind m k h = k a h'.
Proof. intros E. unfold bind. now rewrite E. Qed.

Lemma load_ok (h : heap) a xs :
  h !! a = Some xs -> load a h = (Return xs, h).
Proof. intros E. unfold load. now rewrite E. Qed.

Lemma store_ok (h : heap) a xs ys :
  h !! a = Some xs -> store a ys h = (Return tt, <[a := ys]> h).
Proof. intros E. unfold store. now rewrite E. Qed.

Lemma len_ok (h : heap) a xs :
  h !! a = Some xs -> len a h = (Return (length xs), h).
Proof. intros E. unfold len. now rewrite (bind_return _ _ _ _ _ (load_ok _ _ _ E)). Qed.

Lemma norm_index_nat n i : i < n -> norm_index n (Z.of_nat i) = Some i.
Proof.
  intros Hi. unfold norm_index.
  destruct (decide (0 <= Z.of_nat i < Z.of_nat n)%Z) as [_|N]; [|lia].
  now rewrite Nat2Z.id.
Qed.

Lemma getitem_ok (h : heap) a (xs : list R) i x :
  h !! a = Some xs -> xs !! i = Some x ->
  getitem a (Z.of_nat i) h = (Return x, h).
Proof.
  intros E Ei. unfold getitem.
  rewrite (bind_return _ _ _ _ _ (load_ok _ _ _ E)).
  rewrite norm_index_nat by (eapply lookup_lt_Some; eassumption).
  now rewrite Ei.
Qed.

Lemma setitem_ok (h : heap) a (xs : list R) i v :
  h !! a = Some xs -> i < length xs ->
  setitem a (Z.of_nat i) v h = (Return tt, <[a := <[i := v]> xs]> h).
Proof.
  intros E Hi. unfold setitem.
  rewrite (bind_return _ _ _ _ _ (load_ok _ _ _ E)).
  rewrite norm_index_nat by assumption.
  now apply store_ok with xs.
Qed.

Lemma item_ok (xs : list R) i x (h : heap) :
  xs !! i = Some x -> Np.item xs (Z.of_nat i) h = (Return x, h).
Proof.
  intros Ei. unfold Np.item.
  rewrite norm_index_nat by (eapply lookup_lt_Some; eassumption).
  now rewrite Ei.
Qed.

Lemma bind_return_inv {A B} (m : M A) (k : A -> M B) h b h' :
  bind m k h = (Return b, h') ->
  exists a h1, m h = (Return a, h1) /\ k a h1 = (Return b, h').
Proof.
  unfold bind. destruct (m h) as [[a|e] h1]; [|discriminate].
  intros E. now exists a, h1.
Qed.

Lemma alloc_fresh (h : heap) xs :
  h !! fresh (dom h) = None /\
  alloc xs h = (Return (fresh (dom h)), <[fresh (dom h) := xs]> h).
Proof. split; [|reflexivity]. apply not_elem_of_dom. apply is_fresh. Qed.

Lemma truediv_ok x y : y <> 0%R -> truediv x y = Return (x / y)%R.
Proof. intros N. unfold truediv. now destruct (decide _). Qed.

Lemma math_sqrt_ok x : (0 <= x)%R -> math_sqrt x = Return (sqrt x).
Proof. intros P. unfold math_sqrt. destruct (decide _); [lra|reflexivity]. Qed.

Lemma int_of_Z (z : Z) : (0 <= z)%Z -> int (IZR z) = z.
Proof.
  intros Hz. unfold int.
  destruct (decide (0 <= IZR z)%R) as [_|N].
  - apply Zfloor_eq. lra.
  - exfalso. apply N. now apply IZR_le.
Qed.

(** A loop whose body keeps an invariant, indexed by the number of
    iterations done, and never raises, runs to its end. *)
Lemma for_each_invariant {A} (I : nat -> heap -> Prop) (xs : list A)
    (body : A -> M unit) h :
  I 0 h ->
  (forall k x h1, xs !! k = Some x -> I k h1 ->
     exists h2, body x h1 = (Return tt, h2) /\ I (S k) h2) ->
  exists h', for_each xs body h = (Return tt, h') /\ I (length xs) h'.
Proof.
  revert I h. induction xs as [|x xs IH]; intros I h H0 Hstep.
  - exists h. now split.
  - destruct (Hstep 0 x h eq_refl H0) as (h1 & E1 & I1).
    destruct (IH (fun k => I (S k)) h1 I1) as (h' & E' & I').
    + intros k y h2 Ek Ik. now apply Hstep.
    + exists h'. split; [|exact I'].
      unfold for_each in *. simpl. now rewrite (bind_return _ _ _ _ _ E1).
Qed.

Lemma range_lookup n k : k < n -> range n !! k = Some (Z.of_nat k).
Proof.
  intros Hk. unfold range. rewrite list_lookup_fmap.
  now rewrite lookup_seq_lt.
Qed.

Lemma range_lookup_inv n k i : range n !! k = Some i -> i = Z.of_nat k /\ k < n.
Proof.
  intros E. assert (Hk : k < n).
  { apply lookup_lt_Some in E. unfold range in E.
    now rewrite length_map, length_seq in E. }
  rewrite range_lookup in E by assumption. split; congruence.
Qed.

Lemma length_range n : length (range n) = n.
Proof. unfold range. now rewrite length_map, length_seq. Qed.

End Steps.

(** ** Which arrays a computation stores into *)

Section Frame.
Import Py Np Spec.
Local Open Scope py_scope.

Lemma writes_unchanged {A} (P : loc -> Prop) (m : M A) :
  (forall h, (m h).2 = h) -> writes_within P m.
Proof. intros E h l. now rewrite E. Qed.

Lemma writes_weaken {A} (P Q : loc -> Prop) (m : M A) :
  (forall l, P l -> Q l) -> writes_within P m -> writes_within Q m.
Proof.
  intros PQ W h l. destruct (W h l) as [L F]. split; [exact L|].
  intros NQ. apply F. intros HP. apply NQ, PQ, HP.
Qed.

Lemma writes_ret {A} P (a : A) : writes_within P (ret a).
Proof. now apply writes_unchanged. Qed.

Lemma writes_raise {A} P e : writes_within P (@raise A e).
Proof. now apply writes_unchanged. Qed.

Lemma writes_lift {A} P (o : outcome A) : writes_within P (lift o).
Proof. now apply writes_unchanged. Qed.

Lemma writes_load P a : writes_within P (load a).
Proof. apply writes_unchanged. intros h. unfold load. now destruct (h !! a). Qed.

Lemma writes_bind {A B} P (m : M A) (k : A -> M B) :
  writes_within P m -> (forall a, writes_within P (k a)) ->
  writes_within P (bind m k).
Proof.
  intros Wm Wk h l. unfold bind.
  specialize (Wm h l). destruct (m h) as [[a|e] h1]; simpl in *; [|exact Wm].
  destruct (Wk a h1 l) as [L F]. destruct Wm as [L1 F1]. split.
  - now rewrite L.
  - intros N. now rewrite F, F1.
Qed.

Lemma writes_for_fold {A S} P (xs : list A) (body : A -> S -> M S) s :
  (forall x s', writes_within P (body x s')) ->
  writes_within P (for_fold xs body s).
Proof.
  intros Wb. revert s. induction xs as [|x xs IH]; intros s; simpl.
  - apply writes_ret.
  - apply writes_bind; [apply Wb | exact IH].
Qed.

Lemma writes_for_each {A} P (xs : list A) (body : A -> M unit) :
  (forall x, writes_within P (body x)) -> writes_within P (for_each xs body).
Proof. intros Wb. apply writes_for_fold. intros x _. apply Wb. Qed.

Lemma writes_len P a : writes_within P (len a).
Proof. apply writes_bind; [apply writes_load | intros; apply writes_ret]. Qed.

Lemma writes_getitem P a i : writes_within P (getitem a i).
Proof.
  apply writes_bind; [apply writes_load|]. intros xs.
  destruct (norm_index _ _); [destruct (xs !! _)|];
    first [apply writes_ret | apply writes_raise].
Qed.

Lemma writes_item P xs i : writes_within P (item xs i).
Proof.
  unfold item. destruct (norm_index _ _); [destruct (xs !! _)|];
    first [apply writes_ret | apply writes_raise].
Qed.

(** A store of as many elements as the array has. *)
Lemma store_same_length (h : heap) a xs ys l :
  h !! a = Some xs -> length ys = length xs ->
  length <$> (store a ys h).2 !! l = length <$> h !! l /\
  (a <> l -> (store a ys h).2 !! l = h !! l).
Proof.
  intros E L. rewrite (store_ok _ _ _ _ E). simpl. split.
  - destruct (decide (a = l)) as [->|N].
    + rewrite lookup_insert_eq, E. simpl. now rewrite L.
    + now rewrite lookup_insert_ne.
  - intros N. now rewrite lookup_insert_ne.
Qed.

Lemma writes_after_load (P : loc -> Prop) a (k : list R -> M unit) :
  P a ->
  (forall h xs, h !! a = Some xs ->
     (k xs h).2 = h \/ exists ys, length ys = length xs /\ k xs h = store a ys h) ->
  writes_within P (bind (load a) k).
Proof.
  intros Pa Hk h l. unfold bind, load.
  destruct (h !! a) as [xs|] eqn:E; [|now split].
  destruct (Hk h xs E) as [Eq|(ys & L & Eq)]; rewrite Eq; [now split|].
  destruct (store_same_length h a xs ys l E L) as [S1 S2]. split; [exact S1|].
  intros N. apply S2. intros ->. now apply N.
Qed.

Lemma writes_setitem a i v : writes_within (eq a) (setitem a i v).
Proof.
  apply writes_after_load; [reflexivity|]. intros h xs E.
  destruct (norm_index _ _); [right|now left].
  eexists. split; [|reflexivity]. apply length_insert.
Qed.

Lemma writes_inplace op a y : writes_within (eq a) (inplace op a y).
Proof.
  apply writes_after_load; [reflexivity|]. intros h xs E.
  destruct (decide _) as [L|N].
  - right. eexists. split; [|reflexivity]. rewrite length_zip_with. lia.
  - destruct y as [|c [|? ?]]; [now left| |now left].
    right. eexists. split; [|reflexivity]. unfold op_s. apply length_map.
Qed.

Lemma writes_inplace_s op a c : writes_within (eq a) (inplace_s op a c).
Proof.
  apply writes_after_load; [reflexivity|]. intros h xs E.
  right. eexists. split; [|reflexivity]. unfold op_s. apply length_map.
Qed.

(** A computation that stores nowhere leaves the heap as it is. *)
Lemma writes_nowhere {A} (m : M A) h :
  writes_within (fun _ => False) m -> (m h).2 = h.
Proof. intros W. apply map_eq. intros l. apply (W h l). tauto. Qed.

End Frame.

Create HintDb frame.
#[global] Hint Resolve writes_ret writes_raise writes_lift writes_load writes_len
  writes_getitem writes_item writes_setitem writes_inplace writes_inplace_s : frame.

Ltac frame_step :=
  first
    [ solve [auto with frame]
    | apply writes_for_each; intros ?
    | apply writes_bind; [|intros ?]
    | match goal with |- Spec.writes_within _ (if ?c then _ else _) => destruct c end
    | match goal with |- Spec.writes_within _ (let '(_, _) := ?p in _) => destruct p end ].

Section FrameBlond.
Import Py Np Spec NumbaBlond.
Local Open Scope py_scope.

Lemma kick_numpy_writes dt dE voltage omega phi acc_kick :
  writes_within (eq dE) (kick_numpy dt dE voltage omega phi acc_kick).
Proof.
  unfold kick_numpy. repeat frame_step.
Qed.

Lemma drift_numpy_writes dt dE T0 lr beta energy a0 a1 a2 :
  writes_within (eq dt) (drift_numpy dt dE T0 lr beta energy a0 a1 a2).
Proof. unfold drift_numpy. repeat frame_step. Qed.

Lemma histo_numpy_writes dt profile cl cr :
  writes_within (fun _ => False) (histo_numpy dt profile cl cr).
Proof. unfold histo_numpy. repeat frame_step. Qed.

End FrameBlond.

(** ** Arrays built element by element *)

Section Arrays.
Context {A B C D : Type}.

Lemma zip_with_map_l (f : A -> B -> C) (g : D -> A) x y :
  zip_with f (map g x) y = zip_with (fun a b => f (g a) b) x y.
Proof. revert y. induction x; intros [|? ?]; simpl; congruence. Qed.

Lemma zip_with_map_r (f : A -> B -> C) (g : D -> B) x y :
  zip_with f x (map g y) = zip_with (fun a b => f a (g b)) x y.
Proof. revert y. induction x; intros [|? ?]; simpl; congruence. Qed.

Lemma zip_with_same (f : A -> A -> C) x :
  zip_with f x x = map (fun a => f a a) x.
Proof. induction x; simpl; congruence. Qed.

Lemma zip_with_swap (f : A -> B -> C) x y :
  zip_with f x y = zip_with (fun b a => f a b) y x.
Proof. revert y. induction x; intros [|? ?]; simpl; congruence. Qed.

Lemma zip_with_take_S (f : A -> B -> C) (xs : list A) (ys : list B) k x y :
  xs !! k = Some x -> ys !! k = Some y ->
  zip_with f (take (S k) xs) (take (S k) ys)
  = zip_with f (take k xs) (take k ys) ++ [f x y].
Proof.
  intros Ex Ey.
  rewrite (take_S_r xs k x Ex), (take_S_r ys k y Ey).
  rewrite zip_with_app; [reflexivity|].
  rewrite !length_take. apply lookup_lt_Some in Ex, Ey. lia.
Qed.

End Arrays.

Section Broadcast.
Import Py Np.

Lemma zip_with_snd_same (x y : list R) :
  length x = length y -> zip_with (fun _ e => e) x y = y.
Proof.
  revert y. induction x; intros [|? ?]; simpl; intros L; try congruence; try discriminate.
  f_equal. apply IHx. lia.
Qed.

Lemma zip_with_accumulate (f : R -> R -> R) (g : R -> R) (x y : list R) :
  zip_with Rplus (zip_with f x y) (map g x) = zip_with (fun d e => (f d e + g d)%R) x y.
Proof. revert y. induction x; intros [|? ?]; simpl; congruence. Qed.

Lemma zeroed (x : list R) : op_s Rmult x 0 = repeat 0%R (length x).
Proof.
  unfold op_s. induction x as [|v x IH]; simpl; [reflexivity|].
  now rewrite IH, Rmult_0_r.
Qed.

Lemma broadcast_same op (x y : list R) :
  length x = length y -> broadcast op x y = Return (zip_with op x y).
Proof. intros L. unfold broadcast. now destruct (decide _). Qed.

Lemma broadcast_map {D} op (f g : D -> R) (x : list D) :
  broadcast op (map f x) (map g x) = Return (map (fun v => op (f v) (g v)) x).
Proof.
  rewrite broadcast_same by now rewrite !length_map.
  now rewrite zip_with_map_l, zip_with_map_r, zip_with_same.
Qed.

Lemma inplace_run op (h : heap) a (x y : list R) :
  h !! a = Some x -> length y = length x ->
  inplace op a y h = (Return tt, <[a := zip_with op x y]> h).
Proof.
  intros E L. unfold inplace. rewrite (bind_return _ _ _ _ _ (load_ok _ _ _ E)).
  destruct (decide _); [|contradiction]. now apply store_ok with x.
Qed.

Lemma inplace_s_run op (h : heap) a (x : list R) c :
  h !! a = Some x ->
  inplace_s op a c h = (Return tt, <[a := op_s op x c]> h).
Proof.
  intros E. unfold inplace_s. rewrite (bind_return _ _ _ _ _ (load_ok _ _ _ E)).
  now apply store_ok with x.
Qed.

End Broadcast.

(** ** The energy kick of notebook 02 *)

Section Kick.
Import Py Np Spec NumbaIntro.
Local Open Scope py_scope.

Variables (voltage omega phi acc_kick : R).

Lemma kick_unrolled_run (h : heap) (dt dE : loc) (vt vE : list R) :
  h !! dt = Some vt -> h !! dE = Some vE -> length vt = length vE ->
  kick_unrolled dt dE voltage omega phi acc_kick h
  = (Return tt,
     <[dE := zip_with (fun d e => (e + gain voltage omega phi acc_kick d)%R) vt vE]> h).
Proof.
  intros Ht HE Hlen. unfold kick_unrolled.
  rewrite (bind_return _ _ _ _ _ (len_ok _ _ _ Ht)).
  set (f := fun d e => (e + gain voltage omega phi acc_kick d)%R).
  destruct (for_each_invariant
    (fun n h1 => h1 = <[dE := zip_with f (take n vt) (take n vE) ++ drop n vE]> h)
    (range (length vt))
    (fun i =>
      e <- getitem dE i ;;
      d <- getitem dt i ;;
      setitem dE i (e + (voltage * sin (omega * d + phi) + acc_kick))%R) h)
    as (h' & E & I).
  - simpl. rewrite drop_0. now rewrite insert_id.
  - intros n i h1 Ei ->. apply range_lookup_inv in Ei as [-> Hn].
    destruct (lookup_lt_is_Some_2 vt n Hn) as [d Ed].
    destruct (lookup_lt_is_Some_2 vE n ltac:(lia)) as [e Ee].
    set (cur := zip_with f (take n vt) (take n vE) ++ drop n vE).
    assert (Hcur : cur !! n = Some e).
    { unfold cur. rewrite lookup_app_r; rewrite length_zip_with, !length_take; [|lia].
      rewrite lookup_drop. replace (n + (n - _)) with n by lia. exact Ee. }
    (* the time read is the one the heap held on entry, also when [dt] and
       [dE] are one array *)
    assert (Hd : exists cur', <[dE := cur]> h !! dt = Some cur' /\ cur' !! n = Some d).
    { destruct (decide (dE = dt)) as [<-|N].
      - exists cur. split; [apply lookup_insert_eq|]. congruence.
      - exists vt. split; [now rewrite lookup_insert_ne|exact Ed]. }
    destruct Hd as (cur' & Hdt & Ed').
    eexists. split.
    + erewrite bind_return; [|eapply getitem_ok; [apply lookup_insert_eq|exact Hcur]].
      erewrite bind_return; [|eapply getitem_ok; [exact Hdt|exact Ed']].
      eapply setitem_ok; [apply lookup_insert_eq|].
      apply lookup_lt_Some in Hcur. exact Hcur.
    + rewrite insert_insert_eq. f_equal.
      unfold cur. rewrite (zip_with_take_S _ _ _ _ _ _ Ed Ee).
      rewrite insert_app_r_alt; rewrite length_zip_with, !length_take; [|lia].
      replace (n - _) with 0 by lia.
      rewrite <- app_assoc. f_equal.
      rewrite (drop_S vE e n Ee). reflexivity.
  - rewrite E. f_equal. rewrite I. rewrite length_range. f_equal.
    rewrite firstn_all. rewrite Hlen, firstn_all, drop_all. apply app_nil_r.
Qed.

Lemma intro_kick_numpy_run (h : heap) (dt dE : loc) (vt vE : list R) :
  h !! dt = Some vt -> h !! dE = Some vE -> length vt = length vE ->
  kick_numpy dt dE voltage omega phi acc_kick h
  = (Return tt,
     <[dE := zip_with (fun d e => (e + gain voltage omega phi acc_kick d)%R) vt vE]> h).
Proof.
  intros Ht HE Hlen. unfold kick_numpy.
  rewrite (bind_return _ _ _ _ _ (load_ok _ _ _ Ht)).
  rewrite inplace_run with (x := vE);
    [|exact HE|unfold op_s, s_op, np_sin; now rewrite !length_map].
  do 2 f_equal. unfold op_s, s_op, np_sin. rewrite !map_map.
  rewrite zip_with_map_r. apply zip_with_swap.
Qed.

End Kick.

(** ** The steps of the tracking loop of notebook 03 *)

Section Turn.
Import Py Np Spec NumbaBlond.
Local Open Scope py_scope.

Lemma drift_numpy_run (h : heap) dt dE vt vE T0 lr beta energy a0 a1 a2 :
  h !! dt = Some vt -> h !! dE = Some vE -> length vt = length vE ->
  beta <> 0%R -> energy <> 0%R ->
  drift_numpy dt dE T0 lr beta energy a0 a1 a2 h
  = (Return tt, <[dt := zip_with (drifted T0 lr beta energy a0 a1 a2) vE vt]> h).
Proof.
  intros Ht HE L Nb Ne. unfold drift_numpy.
  rewrite (truediv_ok 1 (beta ^ 2)) by (now apply pow_nonzero).
  rewrite (truediv_ok 1 (energy ^ 2)) by (now apply pow_nonzero).
  unfold lift at 1 2. unfold bind at 1 2.
  rewrite (bind_return _ _ _ _ _ (load_ok _ _ _ HE)).
  unfold op_s, s_op, power, np_sqrt.
  repeat (rewrite ?map_map; rewrite broadcast_map;
          unfold lift at 1; unfold bind at 1;
          try rewrite (bind_return _ _ _ _ _ (load_ok _ _ _ HE))).
  rewrite ?map_map.
  rewrite inplace_run with (x := vt); [|exact Ht|rewrite length_map; lia].
  do 2 f_equal.
  rewrite zip_with_map_r. rewrite zip_with_swap. reflexivity.
Qed.

Lemma stations_lookup vs ws ps j v :
  vs !! j = Some v -> length vs <= length ws -> length vs <= length ps ->
  exists w p, ws !! j = Some w /\ ps !! j = Some p /\
              stations vs ws ps !! j = Some (v, w, p).
Proof.
  intros Ev Lw Lp. pose proof (lookup_lt_Some _ _ _ Ev) as Hj.
  destruct (lookup_lt_is_Some_2 ws j ltac:(lia)) as [w Ew].
  destruct (lookup_lt_is_Some_2 ps j ltac:(lia)) as [p Ep].
  exists w, p. split; [exact Ew|]. split; [exact Ep|].
  unfold stations. rewrite !lookup_zip_with, Ev. simpl. rewrite Ew. simpl.
  now rewrite Ep.
Qed.

Lemma length_stations vs ws ps :
  length vs <= length ws -> length vs <= length ps ->
  length (stations vs ws ps) = length vs.
Proof. intros Lw Lp. unfold stations. rewrite !length_zip_with. lia. Qed.

Lemma blond_kick_numpy_run (h : heap) dt dE voltage omega phi vt vE vs ws ps acc_kick :
  h !! dt = Some vt -> h !! dE = Some vE ->
  h !! voltage = Some vs -> h !! omega = Some ws -> h !! phi = Some ps ->
  dt <> dE -> voltage <> dE -> omega <> dE -> phi <> dE ->
  length vt = length vE -> length vs <= length ws -> length vs <= length ps ->
  kick_numpy dt dE voltage omega phi acc_kick h
  = (Return tt, <[dE := zip_with (kicked (stations vs ws ps) acc_kick) vt vE]> h).
Proof.
  intros Ht HE Hv Hw Hp Nt Nv Nw Np L Lw Lp. unfold kick_numpy.
  rewrite (bind_return _ _ _ _ _ (len_ok _ _ _ Hv)).
  set (F := fun j (d e : R) =>
              fold_left (fun acc '(v, w, p) => (acc + v * sin (w * d + p))%R)
                        (take j (stations vs ws ps)) e).
  match goal with |- bind (for_each _ ?b) _ _ = _ =>
    destruct (for_each_invariant
      (fun j h1 => h1 = <[dE := zip_with (F j) vt vE]> h) (range (length vs)) b h)
      as (h' & E & I)
  end.
  - unfold F. simpl. rewrite zip_with_snd_same by assumption. now rewrite insert_id.
  - intros j i h1 Ei ->. apply range_lookup_inv in Ei as [-> Hj].
    destruct (lookup_lt_is_Some_2 vs j Hj) as [v Ev].
    destruct (stations_lookup vs ws ps j v Ev Lw Lp) as (w & p & Ew & Ep & Es).
    eexists. split.
    + erewrite bind_return;
        [|eapply getitem_ok; [rewrite lookup_insert_ne by congruence; exact Hv|exact Ev]].
      erewrite bind_return;
        [|eapply getitem_ok; [rewrite lookup_insert_ne by congruence; exact Hw|exact Ew]].
      erewrite bind_return;
        [|eapply load_ok; rewrite lookup_insert_ne by congruence; exact Ht].
      erewrite bind_return;
        [|eapply getitem_ok; [rewrite lookup_insert_ne by congruence; exact Hp|exact Ep]].
      apply inplace_run; [apply lookup_insert_eq|].
      unfold s_op, np_sin, op_s. rewrite !length_map, length_zip_with. lia.
    + rewrite insert_insert_eq. f_equal.
      unfold s_op, np_sin, op_s. rewrite !map_map.
      rewrite zip_with_accumulate. apply zip_with_ext; [|reflexivity..].
      intros d e. unfold F. rewrite (take_S_r _ _ _ Es), fold_left_app. reflexivity.
  - rewrite (bind_return _ _ _ _ _ E). rewrite I.
    rewrite inplace_s_run with (x := zip_with (F (length (range (length vs)))) vt vE)
      by apply lookup_insert_eq.
    rewrite insert_insert_eq. do 2 f_equal.
    unfold op_s. rewrite length_range.
    unfold F. rewrite <- (length_stations vs ws ps Lw Lp), firstn_all.
    clear. revert vE. induction vt; intros [|? ?]; simpl; try reflexivity.
    now rewrite IHvt.
Qed.

Lemma histo_numpy_run (h : heap) dt profile vt vp cl cr :
  h !! dt = Some vt -> h !! profile = Some vp -> vp <> [] -> ~ (cr < cl)%R ->
  histo_numpy dt profile cl cr h = (Return tt, h).
Proof.
  intros Ht Hp Np Nc. unfold histo_numpy.
  rewrite (bind_return _ _ _ _ _ (load_ok _ _ _ Ht)).
  rewrite (bind_return _ _ _ _ _ (len_ok _ _ _ Hp)).
  unfold histogram.
  destruct (decide (length vp = 0)) as [Z|_]; [destruct vp; [congruence|discriminate]|].
  destruct (decide (cr < cl)%R); [contradiction|].
  now destruct (decide (cl = cr)).
Qed.

End Turn.

(** ** The tracking loop *)

Section Loop.
Import Py Np Spec NumbaBlond.
Local Open Scope py_scope.

Lemma for_each_times {A} (xs : list A) (m : M unit) h :
  for_each xs (fun _ => m) h = times (length xs) m h.
Proof.
  unfold for_each. generalize tt at 1. revert h.
  induction xs as [|x xs IH]; intros h []; simpl; [reflexivity|].
  unfold bind. destruct (m h) as [[u|e] h1]; [|reflexivity]. apply IH.
Qed.

Lemma times_S_r n (m : M unit) h : times (S n) m h = bind (times n m) (fun _ => m) h.
Proof.
  revert h. induction n as [|n IH]; intros h.
  - simpl. unfold bind, ret. destruct (m h) as [[[]|e] h1]; reflexivity.
  - change (times (S (S n)) m h) with (bind m (fun _ => times (S n) m) h).
    change (times (S n) m) with (bind m (fun _ => times n m)) at 2.
    unfold bind at 1 2 3. destruct (m h) as [[[]|e] h1]; [|reflexivity].
    rewrite IH. reflexivity.
Qed.

Variables (dt dE profile : loc) (cut_left cut_right : R) (voltage omega phi : loc).
Variables (acc_kick T0 length_ratio beta energy alpha_zero alpha_one alpha_two : R).

Abbreviation body :=
  (iteration dt dE profile cut_left cut_right voltage omega phi
     acc_kick T0 length_ratio beta energy alpha_zero alpha_one alpha_two).

Lemma loop_numpy_times h :
  loop_numpy dt dE profile cut_left cut_right voltage omega phi
    acc_kick T0 length_ratio beta energy alpha_zero alpha_one alpha_two h
  = times n_iter body h.
Proof. unfold loop_numpy. now rewrite for_each_times, length_range. Qed.

Lemma iteration_writes : writes_within (fun l => l = dE \/ l = dt \/ l = profile) body.
Proof.
  unfold iteration.
  apply writes_bind; [|intros _; apply writes_bind; [|intros _; apply writes_bind; [|intros _]]].
  - eapply writes_weaken; [|apply kick_numpy_writes]. intros l <-. tauto.
  - eapply writes_weaken; [|apply drift_numpy_writes]. intros l <-. tauto.
  - eapply writes_weaken; [|apply writes_inplace_s]. intros l <-. tauto.
  - eapply writes_weaken; [|apply histo_numpy_writes]. intros l [].
Qed.

Lemma times_writes n :
  writes_within (fun l => l = dE \/ l = dt \/ l = profile) (times n body).
Proof.
  induction n as [|n IH]; simpl; [apply writes_ret|].
  apply writes_bind; [apply iteration_writes | intros _; exact IH].
Qed.

(** An iteration that returns leaves the profile zeroed. *)
Lemma iteration_zeroes (h h' : heap) vp :
  h !! profile = Some vp -> body h = (Return tt, h') ->
  h' !! profile = Some (repeat 0%R (length vp)).
Proof.
  intros Hp E. unfold iteration in E.
  apply bind_return_inv in E as ([] & h1 & E1 & E).
  apply bind_return_inv in E as ([] & h2 & E2 & E).
  apply bind_return_inv in E as ([] & h3 & E3 & E).
  assert (L1 : length <$> h1 !! profile = Some (length vp)).
  { replace h1 with (kick_numpy dt dE voltage omega phi acc_kick h).2 by now rewrite E1.
    rewrite (proj1 (kick_numpy_writes _ _ _ _ _ _ _ _)). now rewrite Hp. }
  assert (L2 : length <$> h2 !! profile = Some (length vp)).
  { replace h2 with (drift_numpy dt dE T0 length_ratio beta energy
                       alpha_zero alpha_one alpha_two h1).2 by now rewrite E2.
    now rewrite (proj1 (drift_numpy_writes _ _ _ _ _ _ _ _ _ _ _)). }
  destruct (h2 !! profile) as [x|] eqn:Hx; [|discriminate].
  injection L2 as L2.
  rewrite (inplace_s_run _ _ _ _ _ Hx) in E3. injection E3 as <-.
  pose proof (writes_nowhere _ (<[profile:=op_s Rmult x 0]> h2)
                (histo_numpy_writes dt profile cut_left cut_right)) as Eh.
  rewrite E in Eh. simpl in Eh. subst h'.
  rewrite lookup_insert_eq, zeroed. now rewrite L2.
Qed.

Lemma times_zeroes n (h h' : heap) vp :
  h !! profile = Some vp -> times (S n) body h = (Return tt, h') ->
  h' !! profile = Some (repeat 0%R (length vp)).
Proof.
  intros Hp E. rewrite times_S_r in E.
  apply bind_return_inv in E as ([] & h1 & E1 & E).
  assert (L1 : length <$> h1 !! profile = Some (length vp)).
  { replace h1 with (times n body h).2 by now rewrite E1.
    rewrite (proj1 (times_writes _ _ _)). now rewrite Hp. }
  destruct (h1 !! profile) as [x|] eqn:Hx; [|discriminate].
  injection L1 as L1. rewrite <- L1. now apply iteration_zeroes with h1.
Qed.

End Loop.

Section LoopRun.
Import Py Np Spec NumbaBlond.
Local Open Scope py_scope.

Variables (dt dE profile : loc) (cut_left cut_right : R) (voltage omega phi : loc).
Variables (acc_kick T0 length_ratio beta energy alpha_zero alpha_one alpha_two : R).
Variables (h : heap) (vt vE vp vs ws ps : list R).

Hypothesis Ht : h !! dt = Some vt.
Hypothesis HE : h !! dE = Some vE.
Hypothesis Hp : h !! profile = Some vp.
Hypothesis Hv : h !! voltage = Some vs.
Hypothesis Hw : h !! omega = Some ws.
Hypothesis Hph : h !! phi = Some ps.
Hypothesis Hdistinct : NoDup [dt; dE; profile].
Hypothesis Hvoltage : voltage ∉ [dt; dE; profile].
Hypothesis Homega : omega ∉ [dt; dE; profile].
Hypothesis Hphi : phi ∉ [dt; dE; profile].
Hypothesis Hlen : length vt = length vE.
Hypothesis Hlw : length vs <= length ws.
Hypothesis Hlp : length vs <= length ps.
Hypothesis Hbins : vp <> [].
Hypothesis Hcuts : ~ (cut_right < cut_left)%R.
Hypothesis Hbeta : beta <> 0%R.
Hypothesis Henergy : energy <> 0%R.

Abbreviation one_turn :=
  (turn (stations vs ws ps) acc_kick T0 length_ratio beta energy
        alpha_zero alpha_one alpha_two).

(** The beam after [n] turns, and the profile. *)
Abbreviation beam_after n := (Nat.iter n one_turn (vt, vE)).
Abbreviation profile_after n :=
  (match n with O => vp | S _ => repeat 0%R (length vp) end).

Lemma turns_lengths n :
  length (beam_after n).1 = length vt /\ length (beam_after n).2 = length vt.
Proof.
  induction n as [|n [L1 L2]]; [split; [reflexivity|now symmetry]|].
  change (beam_after (S n)) with (one_turn (beam_after n)).
  destruct (beam_after n) as [a b]. simpl in *.
  rewrite !length_zip_with. lia.
Qed.

Lemma distinct_facts :
  dt <> dE /\ dt <> profile /\ dE <> profile /\
  voltage <> dt /\ voltage <> dE /\ voltage <> profile /\
  omega <> dt /\ omega <> dE /\ omega <> profile /\
  phi <> dt /\ phi <> dE /\ phi <> profile.
Proof.
  clear -Hdistinct Hvoltage Homega Hphi.
  apply NoDup_cons in Hdistinct as [N1 Hd]. apply NoDup_cons in Hd as [N2 _].
  rewrite !not_elem_of_cons in *. intuition congruence.
Qed.

Lemma turns_run n :
  times n
    (iteration dt dE profile cut_left cut_right voltage omega phi
       acc_kick T0 length_ratio beta energy alpha_zero alpha_one alpha_two) h
  = (Return tt,
     with_beam h dt dE profile (beam_after n).1 (beam_after n).2 (profile_after n)).
Proof.
  destruct distinct_facts as (D1 & D2 & D3 & V1 & V2 & V3 & W1 & W2 & W3 & P1 & P2 & P3).
  induction n as [|n IH].
  - unfold with_beam. simpl.
    now rewrite (insert_id h dE vE HE), (insert_id h dt vt Ht), (insert_id h profile vp Hp).
  - rewrite times_S_r. rewrite (bind_return _ _ _ _ _ IH). clear IH.
    destruct (turns_lengths n) as [L1 L2].
    set (s := beam_after n) in *.
    set (p := profile_after n).
    set (hn := with_beam h dt dE profile s.1 s.2 p).
    assert (Lp : length p = length vp).
    { unfold p. destruct n; [reflexivity|apply repeat_length]. }
    assert (At : hn !! dt = Some s.1).
    { unfold hn, with_beam. rewrite lookup_insert_ne by congruence. apply lookup_insert_eq. }
    assert (AE : hn !! dE = Some s.2).
    { unfold hn, with_beam. rewrite !lookup_insert_ne by congruence. apply lookup_insert_eq. }
    assert (Ap : hn !! profile = Some p).
    { unfold hn, with_beam. apply lookup_insert_eq. }
    assert (Av : hn !! voltage = Some vs).
    { unfold hn, with_beam. now rewrite !lookup_insert_ne by congruence. }
    assert (Aw : hn !! omega = Some ws).
    { unfold hn, with_beam. now rewrite !lookup_insert_ne by congruence. }
    assert (Aph : hn !! phi = Some ps).
    { unfold hn, with_beam. now rewrite !lookup_insert_ne by congruence. }
    unfold iteration.
    erewrite bind_return;
      [|eapply blond_kick_numpy_run; eauto; congruence].
    erewrite bind_return;
      [|eapply drift_numpy_run;
        [rewrite lookup_insert_ne by congruence; exact At
        |apply lookup_insert_eq
        |rewrite length_zip_with; lia
        |assumption..]].
    erewrite bind_return;
      [|eapply inplace_s_run; rewrite !lookup_insert_ne by congruence; exact Ap].
    erewrite histo_numpy_run;
      [|rewrite lookup_insert_ne by congruence; apply lookup_insert_eq
       |apply lookup_insert_eq
       |rewrite zeroed; intros Z; apply Hbins;
        apply (f_equal length) in Z; rewrite repeat_length, Lp in Z;
        now destruct vp
       |assumption].
    f_equal. rewrite zeroed, Lp.
    unfold hn, with_beam. apply map_eq. intros l.
    change (beam_after (S n)) with (one_turn s).
    rewrite !lookup_insert. unfold turn. simpl.
    repeat case_decide; congruence.
Qed.

End LoopRun.

(** ** The histogram with the explicit loop *)

Section Histogram.
Import Py Np Spec NumbaBlond.
Local Open Scope py_scope.

Lemma bin_count_snoc n cl cr (ts : list R) t b :
  bin_count n cl cr (ts ++ [t]) b
  = bin_count n cl cr ts b + (if decide (bin_of n cl cr t = Z.of_nat b) then 1 else 0).
Proof.
  unfold bin_count. rewrite filter_app, length_app. f_equal.
  rewrite filter_cons, filter_nil. now destruct (decide _).
Qed.

Lemma counted_skip n cl cr ts t vp :
  (forall b, b < length vp -> bin_of n cl cr t <> Z.of_nat b) ->
  counted n cl cr (ts ++ [t]) vp = counted n cl cr ts vp.
Proof.
  intros Hb. apply list_eq. intros j. unfold counted. rewrite !list_lookup_imap.
  destruct (vp !! j) as [c0|] eqn:Ej; [|reflexivity]. simpl. do 3 f_equal.
  rewrite bin_count_snoc. destruct (decide _) as [Y|_]; [|lia].
  exfalso. apply (Hb j); [|exact Y]. now apply lookup_lt_Some in Ej.
Qed.

Lemma counted_hit n cl cr ts t vp b c :
  bin_of n cl cr t = Z.of_nat b -> counted n cl cr ts vp !! b = Some c ->
  <[b := (c + 1)%R]> (counted n cl cr ts vp) = counted n cl cr (ts ++ [t]) vp.
Proof.
  intros Hb Ec. apply list_eq. intros j. unfold counted in *.
  rewrite list_lookup_imap. rewrite list_lookup_imap in Ec.
  destruct (decide (j = b)) as [->|Nj].
  - rewrite list_lookup_insert_eq
      by (rewrite length_imap; destruct (vp !! b) eqn:Ej; [|discriminate];
          now apply lookup_lt_Some in Ej).
    destruct (vp !! b) as [c0|]; [|discriminate]. simpl in *.
    injection Ec as <-. f_equal. rewrite bin_count_snoc.
    destruct (decide _) as [_|N]; [|contradiction].
    rewrite plus_INR. simpl. lra.
  - rewrite list_lookup_insert_ne by congruence. rewrite list_lookup_imap.
    destruct (vp !! j) as [c0|]; [|reflexivity]. simpl. do 3 f_equal.
    rewrite bin_count_snoc. destruct (decide _) as [Y|_]; [|lia].
    rewrite Hb in Y. apply Nat2Z.inj in Y. congruence.
Qed.

Lemma histo_unrolled_run (h : heap) dt profile vt vp cl cr :
  h !! dt = Some vt -> h !! profile = Some vp -> dt <> profile -> cl <> cr ->
  histo_unrolled dt profile cl cr h
  = (Return tt, <[profile := counted (length vp) cl cr vt vp]> h).
Proof.
  intros Ht Hp Nd Nc. unfold histo_unrolled.
  rewrite (bind_return _ _ _ _ _ (len_ok _ _ _ Hp)).
  rewrite truediv_ok by lra. unfold lift at 1. unfold bind at 1.
  rewrite (bind_return _ _ _ _ _ (load_ok _ _ _ Ht)).
  set (n := length vp).
  set (tb := np_floor _).
  assert (Htb : forall k t, vt !! k = Some t ->
                  tb !! k = Some (IZR (bin_of n cl cr t))).
  { intros k t Ek. unfold tb, np_floor, op_s. rewrite !map_map.
    change (map ?f vt) with (f <$> vt). rewrite list_lookup_fmap, Ek. simpl.
    unfold bin_of. do 3 f_equal. unfold Rdiv. ring. }
  assert (Ltb : length tb = length vt).
  { unfold tb, np_floor, op_s. now rewrite !length_map. }
  match goal with |- for_each _ ?b _ = _ =>
    destruct (for_each_invariant
      (fun k h1 => h1 = <[profile := counted n cl cr (take k vt) vp]> h)
      (range (length tb)) b h) as (h' & E & I)
  end.
  - simpl. rewrite <- (insert_id h profile vp Hp) at 1. f_equal.
    apply list_eq. intros b. unfold counted. rewrite list_lookup_imap.
    destruct (vp !! b); simpl; [|reflexivity]. f_equal. unfold bin_count. simpl. lra.
  - intros k i h1 Ei ->. apply range_lookup_inv in Ei as [-> Hk].
    destruct (lookup_lt_is_Some_2 vt k ltac:(lia)) as [t Et].
    pose proof (Htb k t Et) as Etb.
    remember (bin_of n cl cr t) as z eqn:Ez.
    set (cur := counted n cl cr (take k vt) vp).
    assert (Lcur : length cur = n) by (unfold cur, counted; apply length_imap).
    assert (Hc : <[profile := cur]> h !! profile = Some cur) by apply lookup_insert_eq.
    rewrite (take_S_r vt k t Et).
    rewrite (bind_return _ _ _ _ _ (item_ok _ _ _ _ Etb)).
    destruct (decide (0 <= IZR z)%R) as [P0|N0].
    + rewrite (bind_return _ _ _ _ _ (item_ok _ _ _ _ Etb)).
      rewrite (bind_return _ _ _ _ _ (len_ok _ _ _ Hc)). rewrite Lcur.
      destruct (decide (IZR z < INR n)%R) as [P1|N1].
      * rewrite (bind_return _ _ _ _ _ (item_ok _ _ _ _ Etb)).
        assert (Hz0 : (0 <= z)%Z) by now apply le_IZR.
        assert (Hz1 : (z < Z.of_nat n)%Z).
        { apply lt_IZR. now rewrite <- INR_IZR_INZ. }
        rewrite int_of_Z by assumption.
        assert (Hzb : z = Z.of_nat (Z.to_nat z)) by now rewrite Z2Nat.id.
        set (b := Z.to_nat z) in *. rewrite Hzb.
        destruct (lookup_lt_is_Some_2 cur b ltac:(lia)) as [c Ec].
        rewrite (bind_return _ _ _ _ _ (getitem_ok _ _ _ _ _ Hc Ec)).
        rewrite (setitem_ok _ _ _ _ _ Hc) by lia.
        eexists. split; [reflexivity|].
        rewrite insert_insert_eq. f_equal.
        apply counted_hit; [congruence|exact Ec].
      * eexists. split; [reflexivity|]. f_equal. symmetry. apply counted_skip.
        intros j Hj Y. apply N1. rewrite Ez, Y, <- INR_IZR_INZ. now apply lt_INR.
    + eexists. split; [reflexivity|]. f_equal. symmetry. apply counted_skip.
      intros j Hj Y. apply N0. rewrite Ez, Y. apply IZR_le. lia.
  - rewrite E, I. rewrite length_range, Ltb, firstn_all. reflexivity.
Qed.

End Histogram.

(** ** The average, the normal density and the roots of notebook 02 *)

Section Scalars.
Import Py Np Spec NumbaIntro.
Local Open Scope py_scope.

Lemma sqrt_2PI_pos : (0 < sqrt (2 * PI))%R.
Proof. apply sqrt_lt_R0. pose proof PI_RGT_0. lra. Qed.

Lemma standard_normal_pdf_run x (h : heap) :
  standard_normal_pdf x h = (Return (pdf x), h).
Proof.
  unfold standard_normal_pdf. pose proof sqrt_2PI_pos as S. pose proof PI_RGT_0.
  rewrite math_sqrt_ok by lra. unfold lift at 1. unfold bind.
  rewrite truediv_ok by lra. reflexivity.
Qed.

Lemma numpy_pdf_run (h : heap) x xs :
  h !! x = Some xs ->
  numpy_pdf x h = (Return (fresh (dom h)), <[fresh (dom h) := map pdf xs]> h).
Proof.
  intros E. unfold numpy_pdf. rewrite (bind_return _ _ _ _ _ (load_ok _ _ _ E)).
  unfold op_s, np_exp, neg, power. rewrite !map_map. reflexivity.
Qed.

Lemma fold_left_total xs a : fold_left Rplus xs a = (a + total xs)%R.
Proof.
  revert a. induction xs as [|x xs IH]; intros a; simpl.
  - unfold total. simpl. lra.
  - rewrite IH. unfold total. simpl. lra.
Qed.

Lemma accumulate_run (xs : list R) a (h : heap) :
  for_fold xs (fun elem acc => ret (acc + elem)%R) a h
  = (Return (fold_left Rplus xs a), h).
Proof.
  revert a. induction xs as [|x xs IH]; intros a; simpl; [reflexivity|].
  unfold bind, ret at 1. apply IH.
Qed.

Lemma average_unrolled_run (h : heap) arr xs :
  h !! arr = Some xs ->
  average_unrolled arr h = (truediv (total xs) (INR (length xs)), h).
Proof.
  intros E. unfold average_unrolled.
  rewrite (bind_return _ _ _ _ _ (load_ok _ _ _ E)).
  rewrite (bind_return _ _ _ _ _ (accumulate_run _ _ _)).
  rewrite (bind_return _ _ _ _ _ (len_ok _ _ _ E)).
  rewrite fold_left_total, Rplus_0_l. reflexivity.
Qed.

Lemma discriminant_run a b c (h : heap) :
  a <> 0%R -> discriminant a b c h = (Return (root a b c), h).
Proof.
  intros N. unfold discriminant.
  rewrite math_sqrt_ok by apply Rabs_pos. unfold lift at 1. unfold bind.
  rewrite truediv_ok by lra. reflexivity.
Qed.

Lemma elementwise3_discriminant va vb vc (h : heap) :
  Forall (fun a => a <> 0%R) va ->
  elementwise3 discriminant va vb vc h = (Return (roots va vb vc), h).
Proof.
  intros F. revert vb vc. induction F as [|a va Na F IH]; intros vb vc.
  - reflexivity.
  - destruct vb as [|b vb]; [reflexivity|]. destruct vc as [|c vc]; [reflexivity|].
    simpl. rewrite (bind_return _ _ _ _ _ (discriminant_run a b c h Na)).
    rewrite (bind_return _ _ _ _ _ (IH vb vc)). reflexivity.
Qed.

Lemma roots_lookup va vb vc i a b c :
  va !! i = Some a -> vb !! i = Some b -> vc !! i = Some c ->
  roots va vb vc !! i = Some (root a b c).
Proof.
  revert vb vc i. induction va as [|a0 va IH]; intros [|b0 vb] [|c0 vc] [|i];
    simpl; try discriminate; intros Ea Eb Ec.
  - congruence.
  - now apply IH.
Qed.

Lemma length_roots va vb vc :
  length va = length vb -> length va = length vc ->
  length (roots va vb vc) = length va.
Proof.
  revert vb vc. induction va as [|a0 va IH]; intros [|b0 vb] [|c0 vc];
    simpl; try discriminate; intros Lb Lc; [reflexivity|].
  f_equal. apply IH; lia.
Qed.

Lemma numpy_roots va vb vc :
  zip_with divide
    (zip_with Rplus (neg vb)
       (np_sqrt (np_abs (zip_with Rminus (power vb 2)
                                  (zip_with Rmult (s_op Rmult 4 va) vc)))))
    (s_op Rmult 2 va)
  = roots va vb vc.
Proof.
  revert vb vc. induction va as [|a va IH]; intros [|b vb] [|c vc]; simpl;
    try reflexivity.
  f_equal. apply IH.
Qed.

Lemma numpy_discriminant_run (h : heap) A B C va vb vc :
  h !! A = Some va -> h !! B = Some vb -> h !! C = Some vc ->
  length va = length vb -> length va = length vc ->
  numpy_discriminant A B C h
  = (Return (fresh (dom h)), <[fresh (dom h) := roots va vb vc]> h).
Proof.
  intros Ha Hb Hc Lb Lc. unfold numpy_discriminant.
  rewrite (bind_return _ _ _ _ _ (load_ok _ _ _ Hb)).
  rewrite (bind_return _ _ _ _ _ (load_ok _ _ _ Ha)).
  rewrite (bind_return _ _ _ _ _ (load_ok _ _ _ Hc)).
  repeat (rewrite broadcast_same
            by (unfold s_op, power, neg, np_sqrt, np_abs;
                repeat (rewrite length_map || rewrite length_zip_with); lia);
          unfold lift at 1; unfold bind at 1).
  rewrite numpy_roots. reflexivity.
Qed.

Lemma unrolled_discriminant_run junk (h : heap) A B C va vb vc :
  h !! A = Some va -> h !! B = Some vb -> h !! C = Some vc ->
  length va = length vb -> length va = length vc ->
  unrolled_discriminant junk A B C h
  = (Return (fresh (dom h)), <[fresh (dom h) := roots va vb vc]> h).
Proof.
  intros Ha Hb Hc Lb Lc. unfold unrolled_discriminant.
  destruct (alloc_fresh h (map junk (seq 0 (length va)))) as (HX & EX).
  remember (fresh (dom h)) as X eqn:EqX.
  assert (EX' : empty_like junk A h = (Return X, <[X := map junk (seq 0 (length va))]> h)).
  { unfold empty_like. now rewrite (bind_return _ _ _ _ _ (load_ok _ _ _ Ha)). }
  rewrite (bind_return _ _ _ _ _ EX').
  set (vj := map junk (seq 0 (length va))) in *.
  assert (Lj : length vj = length va) by (unfold vj; now rewrite length_map, length_seq).
  assert (NA : A <> X) by congruence.
  assert (NB : B <> X) by congruence.
  assert (NC : C <> X) by congruence.
  set (h0 := <[X := vj]> h).
  assert (Ha0 : h0 !! A = Some va) by (unfold h0; now rewrite lookup_insert_ne).
  rewrite (bind_return _ _ _ _ _ (len_ok _ _ _ Ha0)).
  pose proof (length_roots va vb vc Lb Lc) as Lr.
  match goal with |- bind (for_each _ ?b) _ _ = _ =>
    destruct (for_each_invariant
      (fun k h1 => h1 = <[X := take k (roots va vb vc) ++ drop k vj]> h)
      (range (length va)) b h0) as (h' & E & I)
  end.
  - reflexivity.
  - intros k i h1 Ei ->. apply range_lookup_inv in Ei as [-> Hk].
    destruct (lookup_lt_is_Some_2 va k Hk) as [a Ea].
    destruct (lookup_lt_is_Some_2 vb k ltac:(lia)) as [b Eb].
    destruct (lookup_lt_is_Some_2 vc k ltac:(lia)) as [c Ec].
    pose proof (roots_lookup _ _ _ _ _ _ _ Ea Eb Ec) as Er.
    eexists. split.
    + erewrite bind_return;
        [|eapply getitem_ok; [rewrite lookup_insert_ne by congruence; exact Hb|exact Eb]].
      erewrite bind_return;
        [|eapply getitem_ok; [rewrite lookup_insert_ne by congruence; exact Ha|exact Ea]].
      erewrite bind_return;
        [|eapply getitem_ok; [rewrite lookup_insert_ne by congruence; exact Hc|exact Ec]].
      rewrite math_sqrt_ok by apply Rabs_pos. unfold lift at 1. unfold bind at 1.
      eapply setitem_ok; [apply lookup_insert_eq|].
      rewrite length_app, length_take, length_drop. lia.
    + rewrite insert_insert_eq. f_equal.
      rewrite insert_app_r_alt; rewrite length_take; [|lia].
      replace (k - k `min` length (roots va vb vc)) with 0 by lia.
      rewrite (take_S_r _ _ _ Er), <- app_assoc. f_equal.
      destruct (lookup_lt_is_Some_2 vj k ltac:(lia)) as [j Ej].
      rewrite (drop_S vj j k Ej). reflexivity.
  - rewrite (bind_return _ _ _ _ _ E). unfold ret. f_equal. rewrite I.
    rewrite length_range, <- Lr, firstn_all, drop_ge by lia.
    now rewrite app_nil_r.
Qed.

End Scalars.

(** ** Loops that stop on an exception *)

Section Raising.
Import Py.
Local Open Scope py_scope.

Lemma bind_raise {A B} (m : M A) (k : A -> M B) h e h' :
  m h = (Raise e, h') -> bind m k h = (Raise e, h').
Proof. intros E. unfold bind. now rewrite E. Qed.

Lemma for_fold_append {A S} (xs ys : list A) (body : A -> S -> M S) s h :
  for_fold (xs ++ ys) body s h
  = bind (for_fold xs body s) (fun s' => for_fold ys body s') h.
Proof.
  revert s h. induction xs as [|x xs IH]; intros s h; simpl.
  - reflexivity.
  - unfold bind. destruct (body x s h) as [[s'|e] h']; [|reflexivity].
    rewrite IH. reflexivity.
Qed.

Lemma norm_index_ge n i : n <= i -> norm_index n (Z.of_nat i) = None.
Proof.
  intros Hi. unfold norm_index.
  destruct (decide _) as [?|_]; [lia|]. destruct (decide _) as [?|_]; [lia|reflexivity].
Qed.

Lemma getitem_out (h : heap) a (xs : list R) i :
  h !! a = Some xs -> length xs <= i ->
  getitem a (Z.of_nat i) h = (Raise IndexError, h).
Proof.
  intros E Hi. unfold getitem.
  rewrite (bind_return _ _ _ _ _ (load_ok _ _ _ E)).
  now rewrite norm_index_ge.
Qed.

(** A loop whose body keeps an invariant for [k] iterations and raises in
    the next one ends there, with that exception. *)
Lemma for_each_raises {A} (I : nat -> heap -> Prop) (J : heap -> Prop)
    (xs : list A) (body : A -> M unit) h k x e :
  I 0 h -> xs !! k = Some x ->
  (forall j y h1, j < k -> xs !! j = Some y -> I j h1 ->
     exists h2, body y h1 = (Return tt, h2) /\ I (S j) h2) ->
  (forall h1, I k h1 -> exists h2, body x h1 = (Raise e, h2) /\ J h2) ->
  exists h', for_each xs body h = (Raise e, h') /\ J h'.
Proof.
  intros H0 Ek Hstep Hraise.
  pose proof (lookup_lt_Some _ _ _ Ek) as Hk.
  rewrite <- (take_drop k xs). rewrite (drop_S xs x k Ek).
  destruct (for_each_invariant I (take k xs) body h H0) as (h1 & E1 & I1).
  - intros j y h1 Ej Ij.
    assert (Hj : j < k).
    { apply lookup_lt_Some in Ej. rewrite length_take in Ej. lia. }
    rewrite lookup_take_lt in Ej by assumption. now apply (Hstep j y h1).
  - rewrite length_take, Nat.min_l in I1 by lia.
    destruct (Hraise h1 I1) as (h2 & E2 & J2).
    exists h2. split; [|exact J2].
    unfold for_each in *. rewrite for_fold_append.
    rewrite (bind_return _ _ _ _ _ E1). simpl.
    now apply bind_raise.
Qed.

End Raising.

(** ** The kicks of notebook 02 on arrays of different lengths *)

Section KickLengths.
Import Py Np Spec NumbaIntro.
Local Open Scope py_scope.

Lemma zip_with_take_r {A B C} (f : A -> B -> C) (x : list A) (y : list B) :
  zip_with f x (take (length x) y) = zip_with f x y.
Proof.
  revert y. induction x as [|a x IH]; intros [|b y]; simpl; try reflexivity.
  now rewrite IH.
Qed.

Lemma zip_with_take_l {A B C} (f : A -> B -> C) (x : list A) (y : list B) :
  zip_with f (take (length y) x) y = zip_with f x y.
Proof.
  revert y. induction x as [|a x IH]; intros [|b y]; simpl; try reflexivity.
  now rewrite IH.
Qed.

Variables (voltage omega phi acc_kick : R).

Lemma kick_unrolled_step (h : heap) (dt dE : loc) (vt vE : list R) n d e :
  h !! dt = Some vt -> h !! dE = Some vE -> dt <> dE ->
  vt !! n = Some d -> vE !! n = Some e ->
  let f := fun d e => (e + gain voltage omega phi acc_kick d)%R in
  (e <- getitem dE (Z.of_nat n) ;;
   d <- getitem dt (Z.of_nat n) ;;
   setitem dE (Z.of_nat n) (e + (voltage * sin (omega * d + phi) + acc_kick))%R)
    (<[dE := zip_with f (take n vt) (take n vE) ++ drop n vE]> h)
  = (Return tt, <[dE := zip_with f (take (S n) vt) (take (S n) vE) ++ drop (S n) vE]> h).
Proof.
  intros Ht HE Hne Ed Ee f.
  pose proof (lookup_lt_Some _ _ _ Ed) as Hd. pose proof (lookup_lt_Some _ _ _ Ee) as He.
  set (cur := zip_with f (take n vt) (take n vE) ++ drop n vE).
  assert (Hcur : cur !! n = Some e).
  { unfold cur. rewrite lookup_app_r; rewrite length_zip_with, !length_take; [|lia].
    rewrite lookup_drop. replace (n + (n - _)) with n by lia. exact Ee. }
  erewrite bind_return; [|eapply getitem_ok; [apply lookup_insert_eq|exact Hcur]].
  erewrite bind_return;
    [|eapply getitem_ok; [rewrite lookup_insert_ne by congruence; exact Ht|exact Ed]].
  erewrite setitem_ok; [|apply lookup_insert_eq|apply lookup_lt_Some in Hcur; exact Hcur].
  rewrite insert_insert_eq. do 2 f_equal.
  unfold cur. rewrite (zip_with_take_S _ _ _ _ _ _ Ed Ee).
  rewrite insert_app_r_alt; rewrite length_zip_with, !length_take; [|lia].
  replace (n - _) with 0 by lia.
  rewrite <- app_assoc. f_equal.
  rewrite (drop_S vE e n Ee). reflexivity.
Qed.

Lemma kick_unrolled_any_lengths (h : heap) (dt dE : loc) (vt vE : list R) :
  h !! dt = Some vt -> h !! dE = Some vE -> dt <> dE ->
  kick_unrolled dt dE voltage omega phi acc_kick h
  = (if decide (length vt <= length vE) then Return tt else Raise IndexError,
     <[dE := zip_with (fun d e => (e + gain voltage omega phi acc_kick d)%R) vt vE
             ++ drop (length vt) vE]> h).
Proof.
  intros Ht HE Hne. unfold kick_unrolled.
  rewrite (bind_return _ _ _ _ _ (len_ok _ _ _ Ht)).
  set (f := fun d e => (e + gain voltage omega phi acc_kick d)%R).
  set (I := fun n (h1 : heap) =>
              h1 = <[dE := zip_with f (take n vt) (take n vE) ++ drop n vE]> h).
  assert (I0 : I 0 h).
  { unfold I. simpl. rewrite drop_0. now rewrite insert_id. }
  destruct (decide (length vt <= length vE)) as [Le|Gt].
  - match goal with |- for_each _ ?b _ = _ =>
      destruct (for_each_invariant I (range (length vt)) b h I0) as (h' & E & Ih)
    end.
    + intros n i h1 Ei ->. apply range_lookup_inv in Ei as [-> Hn].
      destruct (lookup_lt_is_Some_2 vt n Hn) as [d Ed].
      destruct (lookup_lt_is_Some_2 vE n ltac:(lia)) as [e Ee].
      eexists. split; [|reflexivity].
      now apply (kick_unrolled_step h dt dE vt vE n d e).
    + rewrite E. f_equal. rewrite Ih, length_range. f_equal.
      rewrite (take_ge vt (length vt)) by lia. f_equal.
      apply zip_with_take_r.
  - assert (Hk : length vE < length vt) by lia.
    match goal with |- for_each _ ?b _ = _ =>
      destruct (for_each_raises I
                  (fun h1 => h1 = <[dE := zip_with f vt vE ++ drop (length vt) vE]> h)
                  (range (length vt)) b h (length vE) (Z.of_nat (length vE)) IndexError I0)
        as (h' & E & Ih)
    end.
    + now apply range_lookup.
    + intros n i h1 Hn Ei ->. apply range_lookup_inv in Ei as [-> _].
      destruct (lookup_lt_is_Some_2 vt n ltac:(lia)) as [d Ed].
      destruct (lookup_lt_is_Some_2 vE n Hn) as [e Ee].
      eexists. split; [|reflexivity].
      now apply (kick_unrolled_step h dt dE vt vE n d e).
    + intros h1 ->. eexists. split.
      * eapply bind_raise. eapply getitem_out; [apply lookup_insert_eq|].
        rewrite length_app, length_zip_with, !length_take, length_drop. lia.
      * f_equal. rewrite (take_ge vE (length vE)) by lia.
        rewrite !drop_ge by lia. f_equal. apply zip_with_take_l.
    + rewrite E. now rewrite Ih.
Qed.

Lemma kick_numpy_mismatch (h : heap) (dt dE : loc) (vt vE : list R) :
  h !! dt = Some vt -> h !! dE = Some vE ->
  length vt <> length vE -> length vt <> 1 ->
  kick_numpy dt dE voltage omega phi acc_kick h = (Raise ValueError, h).
Proof.
  intros Ht HE N N1. unfold kick_numpy.
  rewrite (bind_return _ _ _ _ _ (load_ok _ _ _ Ht)).
  unfold inplace. rewrite (bind_return _ _ _ _ _ (load_ok _ _ _ HE)).
  unfold op_s, s_op, np_sin. rewrite !length_map.
  destruct (decide _) as [?|_]; [contradiction|].
  destruct vt as [|d [|d' vt]]; simpl; try reflexivity. contradiction.
Qed.

Lemma kick_numpy_stretch (h : heap) (dt dE : loc) (d : R) (vE : list R) :
  h !! dt = Some [d] -> h !! dE = Some vE ->
  kick_numpy dt dE voltage omega phi acc_kick h
  = (Return tt, <[dE := map (fun e => (e + gain voltage omega phi acc_kick d)%R) vE]> h).
Proof.
  intros Ht HE. unfold kick_numpy.
  rewrite (bind_return _ _ _ _ _ (load_ok _ _ _ Ht)).
  unfold inplace. rewrite (bind_return _ _ _ _ _ (load_ok _ _ _ HE)).
  simpl. destruct (decide (1 = length vE)) as [L|N].
  - destruct vE as [|e [|e' vE]]; try discriminate.
    now rewrite (store_ok _ _ _ _ HE).
  - now rewrite (store_ok _ _ _ _ HE).
Qed.

End KickLengths.

(** ** Computations that change the heap only when they return *)

Section AllOrNothing.
Import Py Np Spec Laws.
Local Open Scope py_scope.

Lemma aon_reading {A} (m : M A) : (forall h, (m h).2 = h) -> all_or_nothing m.
Proof. intros U h h' e E. specialize (U h). rewrite E in U. exact U. Qed.

Lemma aon_bind {A B} (m : M A) (k : A -> M B) :
  (forall h, (m h).2 = h) -> (forall a, all_or_nothing (k a)) ->
  all_or_nothing (bind m k).
Proof.
  intros U K h h' e. unfold bind. specialize (U h).
  destruct (m h) as [[a|e1] h1]; simpl in U; subst h1.
  - apply K.
  - congruence.
Qed.

Lemma reading_load a h : (load a h).2 = h.
Proof. unfold load. now destruct (h !! a). Qed.

Lemma reading_lift {A} (o : outcome A) h : (lift o h).2 = h.
Proof. reflexivity. Qed.

Lemma aon_store a xs : all_or_nothing (store a xs).
Proof. intros h h' e. unfold store. destruct (h !! a); congruence. Qed.

Lemma aon_inplace op a y : all_or_nothing (inplace op a y).
Proof.
  apply aon_bind; [apply reading_load|]. intros x.
  destruct (decide _); [apply aon_store|].
  destruct y as [|c [|? ?]]; first [apply aon_store | now apply aon_reading].
Qed.

Lemma aon_alloc xs : all_or_nothing (alloc xs).
Proof. intros h h' e. unfold alloc. discriminate. Qed.

Lemma intro_kick_numpy_aon dt dE v w p k :
  all_or_nothing (NumbaIntro.kick_numpy dt dE v w p k).
Proof.
  unfold NumbaIntro.kick_numpy. apply aon_bind; [apply reading_load|].
  intros d. apply aon_inplace.
Qed.

Lemma drift_numpy_aon dt dE T0 lr beta energy a0 a1 a2 :
  all_or_nothing (NumbaBlond.drift_numpy dt dE T0 lr beta energy a0 a1 a2).
Proof.
  unfold NumbaBlond.drift_numpy.
  repeat first
    [ apply aon_inplace
    | apply aon_bind; [first [apply reading_load | apply reading_lift]|intros ?] ].
Qed.

Lemma numpy_pdf_aon x : all_or_nothing (NumbaIntro.numpy_pdf x).
Proof.
  unfold NumbaIntro.numpy_pdf. apply aon_bind; [apply reading_load|].
  intros v. apply aon_alloc.
Qed.

Lemma numpy_discriminant_aon A B C : all_or_nothing (NumbaIntro.numpy_discriminant A B C).
Proof.
  unfold NumbaIntro.numpy_discriminant.
  repeat first
    [ apply aon_alloc
    | apply aon_bind; [first [apply reading_load | apply reading_lift]|intros ?] ].
Qed.

End AllOrNothing.

(** ** The drift: what makes it raise, and the particle that does not move *)

Section Drift.
Import Py Np Spec NumbaBlond.
Local Open Scope py_scope.

Lemma drift_numpy_zero_division (h : heap) dt dE T0 lr beta energy a0 a1 a2 :
  beta = 0%R \/ energy = 0%R ->
  drift_numpy dt dE T0 lr beta energy a0 a1 a2 h = (Raise ZeroDivisionError, h).
Proof.
  intros Z. unfold drift_numpy, truediv.
  destruct (decide (beta ^ 2 = 0)%R) as [_|Nb]; [reflexivity|].
  destruct (decide (energy ^ 2 = 0)%R) as [_|Ne]; [reflexivity|].
  exfalso. destruct Z as [-> | ->]; [apply Nb|apply Ne]; simpl; lra.
Qed.

Lemma drifted_rest T0 lr beta energy a0 a1 a2 t :
  drifted T0 lr beta energy a0 a1 a2 0 t = t.
Proof.
  unfold drifted.
  replace (1 + 1 / beta ^ 2 * (0 ^ 2 * (1 / energy ^ 2) + 2 * 0 / energy))%R
    with 1%R by (unfold Rdiv; simpl; ring).
  rewrite sqrt_1.
  replace (0 / energy)%R with 0%R by (unfold Rdiv; ring).
  replace (1 - 1)%R with 0%R by ring.
  replace ((1 + a0 * 0 + a1 * 0 ^ 2 + a2 * 0 ^ 3) * (1 + 0) / (1 + 0) - 1)%R
    with 0%R by (simpl; field).
  ring.
Qed.

Lemma drift_numpy_at_rest (h : heap) dt dE vt vE T0 lr beta energy a0 a1 a2 :
  h !! dt = Some vt -> h !! dE = Some vE -> length vt = length vE ->
  beta <> 0%R -> energy <> 0%R -> Forall (fun e => e = 0%R) vE ->
  drift_numpy dt dE T0 lr beta energy a0 a1 a2 h = (Return tt, h).
Proof.
  intros Ht HE L Nb Ne Z.
  rewrite (drift_numpy_run h dt dE vt vE) by assumption.
  f_equal. rewrite <- (insert_id h dt vt Ht) at 2. f_equal.
  clear Ht HE. revert vt L. induction Z as [|e vE -> Z IH]; intros [|t vt] L;
    try discriminate; [reflexivity|].
  simpl. rewrite drifted_rest. f_equal. apply IH. simpl in L. lia.
Qed.

End Drift.

(** ** Where the other functions store *)

Section MoreFrames.
Import Py Np Spec.
Local Open Scope py_scope.

Lemma kick_unrolled_writes dt dE v w p k :
  writes_within (eq dE) (NumbaIntro.kick_unrolled dt dE v w p k).
Proof. unfold NumbaIntro.kick_unrolled. repeat frame_step. Qed.

Lemma intro_kick_numpy_writes dt dE v w p k :
  writes_within (eq dE) (NumbaIntro.kick_numpy dt dE v w p k).
Proof. unfold NumbaIntro.kick_numpy. repeat frame_step. Qed.

Lemma histo_unrolled_stores dt profile cl cr :
  writes_within (eq profile) (NumbaBlond.histo_unrolled dt profile cl cr).
Proof. unfold NumbaBlond.histo_unrolled. repeat frame_step. Qed.

Lemma loop_numpy_stores dt dE profile cl cr voltage omega phi k T0 lr beta energy a0 a1 a2 :
  writes_within (fun l => l = dE \/ l = dt \/ l = profile)
    (NumbaBlond.loop_numpy dt dE profile cl cr voltage omega phi
       k T0 lr beta energy a0 a1 a2).
Proof.
  unfold NumbaBlond.loop_numpy. apply writes_for_each. intros i.
  apply (iteration_writes dt dE profile cl cr voltage omega phi k T0 lr beta energy a0 a1 a2).
Qed.

End MoreFrames.

(** ** The kick of notebook 03: one station, and a station left out *)

Section Stations.
Import Py Np Spec.
Local Open Scope py_scope.

Lemma one_station_kick (h : heap) dt dE voltage omega phi vt vE v w p acc_kick :
  h !! dt = Some vt -> h !! dE = Some vE ->
  h !! voltage = Some [v] -> h !! omega = Some [w] -> h !! phi = Some [p] ->
  dt <> dE -> voltage <> dE -> omega <> dE -> phi <> dE ->
  length vt = length vE ->
  NumbaBlond.kick_numpy dt dE voltage omega phi acc_kick h
  = NumbaIntro.kick_numpy dt dE v w p acc_kick h.
Proof.
  intros Ht HE Hv Hw Hp Nt Nv Nw Np L.
  rewrite (blond_kick_numpy_run h dt dE voltage omega phi vt vE [v] [w] [p])
    by (assumption || reflexivity).
  rewrite (intro_kick_numpy_run v w p acc_kick h dt dE vt vE) by assumption.
  do 2 f_equal. apply zip_with_ext; [|reflexivity..].
  intros d e. unfold kicked, gain. simpl. ring.
Qed.

Lemma missing_station (h : heap) dt dE voltage omega phi vt vE vs ws ps acc_kick :
  h !! dt = Some vt -> h !! dE = Some vE ->
  h !! voltage = Some vs -> h !! omega = Some ws -> h !! phi = Some ps ->
  dt <> dE -> voltage <> dE -> omega <> dE -> phi <> dE ->
  length vt = length vE ->
  length ws < length vs \/ length ps < length vs ->
  exists vE',
    NumbaBlond.kick_numpy dt dE voltage omega phi acc_kick h
    = (Raise IndexError, <[dE := vE']> h) /\ length vE' = length vE.
Proof.
  intros Ht HE Hv Hw Hp Nt Nv Nw Np L Short. unfold NumbaBlond.kick_numpy.
  rewrite (bind_return _ _ _ _ _ (len_ok _ _ _ Hv)).
  set (m := length ws `min` length ps).
  assert (Hm : m < length vs) by lia.
  set (I := fun (_ : nat) (h1 : heap) =>
              exists cur, length cur = length vE /\ h1 = <[dE := cur]> h).
  assert (I0 : I 0 h).
  { exists vE. split; [reflexivity|]. now rewrite insert_id. }
  match goal with |- exists _, bind (for_each _ ?b) _ _ = _ /\ _ =>
    destruct (for_each_raises I (I 0) (range (length vs)) b h m (Z.of_nat m) IndexError I0)
      as (h' & E & cur & Lc & ->)
  end.
  - now apply range_lookup.
  - intros j i h1 Hj Ei (cur & Lc & ->). apply range_lookup_inv in Ei as [-> _].
    destruct (lookup_lt_is_Some_2 vs j ltac:(lia)) as [v Ev].
    destruct (lookup_lt_is_Some_2 ws j ltac:(lia)) as [w Ew].
    destruct (lookup_lt_is_Some_2 ps j ltac:(lia)) as [p Ep].
    eexists. split.
    + erewrite bind_return;
        [|eapply getitem_ok; [rewrite lookup_insert_ne by congruence; exact Hv|exact Ev]].
      erewrite bind_return;
        [|eapply getitem_ok; [rewrite lookup_insert_ne by congruence; exact Hw|exact Ew]].
      erewrite bind_return;
        [|eapply load_ok; rewrite lookup_insert_ne by congruence; exact Ht].
      erewrite bind_return;
        [|eapply getitem_ok; [rewrite lookup_insert_ne by congruence; exact Hp|exact Ep]].
      apply inplace_run; [apply lookup_insert_eq|].
      unfold s_op, np_sin, op_s. rewrite !length_map. lia.
    + eexists. split; [|now rewrite insert_insert_eq].
      unfold s_op, np_sin, op_s. rewrite length_zip_with, !length_map. lia.
  - intros h1 (cur & Lc & ->).
    destruct (lookup_lt_is_Some_2 vs m Hm) as [v Ev].
    exists (<[dE := cur]> h). split; [|now exists cur].
    erewrite bind_return;
      [|eapply getitem_ok; [rewrite lookup_insert_ne by congruence; exact Hv|exact Ev]].
    destruct (decide (length ws <= m)) as [Sw|Lw].
    + eapply bind_raise. eapply getitem_out; [|exact Sw].
      now rewrite lookup_insert_ne by congruence.
    + destruct (lookup_lt_is_Some_2 ws m ltac:(lia)) as [w Ew].
      erewrite bind_return;
        [|eapply getitem_ok; [rewrite lookup_insert_ne by congruence; exact Hw|exact Ew]].
      erewrite bind_return;
        [|eapply load_ok; rewrite lookup_insert_ne by congruence; exact Ht].
      eapply bind_raise.
      eapply getitem_out;
        [rewrite lookup_insert_ne by congruence; exact Hp|unfold m in *; lia].
  - exists cur. split; [|exact Lc]. now apply bind_raise.
Qed.

End Stations.

(** ** What the histogram with the explicit loop counts *)

Section Counting.
Import Py Np Spec Laws.
Local Open Scope py_scope.

Lemma bin_in_range n cl cr t :
  0 < n -> (cl < cr)%R ->
  (0 <= bin_of n cl cr t < Z.of_nat n)%Z <-> (cl <= t < cr)%R.
Proof.
  intros Hn Hc. unfold bin_of.
  assert (Pn : (0 < INR n)%R) by (apply lt_0_INR; lia).
  set (c := (INR n / (cr - cl))%R).
  assert (Pc : (0 < c)%R) by (unfold c; apply Rdiv_lt_0_compat; lra).
  assert (En : (INR n = (cr - cl) * c)%R) by (unfold c; field; lra).
  replace ((t - cl) * INR n / (cr - cl))%R with ((t - cl) * c)%R
    by (unfold c; field; lra).
  pose proof (Zfloor_bound ((t - cl) * c)) as [Lo Hi].
  split.
  - intros [H0 H1].
    assert (H2 : (Zfloor ((t - cl) * c) + 1 <= Z.of_nat n)%Z) by lia.
    apply IZR_le in H0, H2. rewrite plus_IZR, <- INR_IZR_INZ in H2.
    split; nra.
  - intros [H0 H1]. split.
    + apply Zfloor_lub. simpl. nra.
    + apply lt_IZR. rewrite <- INR_IZR_INZ. nra.
Qed.

Lemma total_hit (l : list R) b c :
  l !! b = Some c -> total (<[b := (c + 1)%R]> l) = (total l + 1)%R.
Proof.
  revert b. induction l as [|x l IH]; intros [|b] E; try discriminate.
  - injection E as ->. unfold total. simpl. lra.
  - simpl in E. unfold total in *. simpl. rewrite (IH b E). lra.
Qed.

Lemma in_range_count_snoc cl cr ts t :
  in_range_count cl cr (ts ++ [t])
  = in_range_count cl cr ts + (if decide (cl <= t < cr)%R then 1 else 0).
Proof.
  unfold in_range_count. rewrite filter_app, length_app. f_equal.
  rewrite filter_cons, filter_nil. now destruct (decide _).
Qed.

Lemma counted_nothing n cl cr vp : counted n cl cr [] vp = vp.
Proof.
  apply list_eq. intros b. unfold counted. rewrite list_lookup_imap.
  destruct (vp !! b); simpl; [|reflexivity]. f_equal. unfold bin_count. simpl. lra.
Qed.

Lemma total_counted cl cr ts vp :
  vp <> [] -> (cl < cr)%R ->
  total (counted (length vp) cl cr ts vp)
  = (total vp + INR (in_range_count cl cr ts))%R.
Proof.
  intros Np Hc. assert (Hn : 0 < length vp) by (destruct vp; [congruence|simpl; lia]).
  induction ts as [|t ts IH] using rev_ind.
  - rewrite counted_nothing. unfold in_range_count. simpl. lra.
  - rewrite in_range_count_snoc, plus_INR.
    pose proof (bin_in_range (length vp) cl cr t Hn Hc) as B.
    destruct (decide (cl <= t < cr)%R) as [In|Out].
    + apply B in In. destruct In as [H0 H1].
      assert (Eb : bin_of (length vp) cl cr t = Z.of_nat (Z.to_nat (bin_of (length vp) cl cr t)))
        by now rewrite Z2Nat.id.
      destruct (lookup_lt_is_Some_2 (counted (length vp) cl cr ts vp)
                  (Z.to_nat (bin_of (length vp) cl cr t))) as [c Ec].
      { unfold counted. rewrite length_imap. lia. }
      rewrite <- (counted_hit _ _ _ _ _ _ _ _ Eb Ec).
      rewrite (total_hit _ _ _ Ec), IH. simpl. lra.
    + rewrite counted_skip, IH; [simpl; lra|].
      intros b Hb Y. apply Out, B. lia.
Qed.

Lemma lookup_repeat_lt {A} (x : A) n i : i < n -> repeat x n !! i = Some x.
Proof.
  revert i. induction n as [|n IH]; intros [|i] Hi; simpl; try lia; [reflexivity|].
  apply IH. lia.
Qed.

Lemma histo_unrolled_total (h : heap) dt profile vt vp cl cr :
  h !! dt = Some vt -> h !! profile = Some vp -> dt <> profile ->
  vp <> [] -> (cl < cr)%R ->
  exists vp',
    NumbaBlond.histo_unrolled dt profile cl cr h = (Return tt, <[profile := vp']> h) /\
    total vp' = (total vp + INR (in_range_count cl cr vt))%R.
Proof.
  intros Ht Hp Nd Np Hc. eexists. split.
  - apply (histo_unrolled_run h dt profile vt vp); (assumption || lra).
  - now apply total_counted.
Qed.

Lemma reset_then_histogram (h : heap) dt profile vt vp cl cr :
  h !! dt = Some vt -> h !! profile = Some vp -> dt <> profile -> cl <> cr ->
  (inplace_s Rmult profile 0 ;;; NumbaBlond.histo_unrolled dt profile cl cr) h
  = (Return tt,
     <[profile := map (fun b => INR (bin_count (length vp) cl cr vt b))
                      (seq 0 (length vp))]> h).
Proof.
  intros Ht Hp Nd Nc.
  rewrite (bind_return _ _ _ _ _ (inplace_s_run Rmult h profile vp 0 Hp)).
  rewrite (histo_unrolled_run _ dt profile vt (op_s Rmult vp 0));
    [|now rewrite lookup_insert_ne by congruence|apply lookup_insert_eq|assumption..].
  rewrite insert_insert_eq. do 2 f_equal.
  rewrite zeroed, repeat_length.
  apply list_eq. intros b. unfold counted. rewrite list_lookup_imap.
  change (map ?f ?l) with (f <$> l). rewrite list_lookup_fmap.
  destruct (decide (b < length vp)) as [Hb|Hb].
  - rewrite lookup_seq_lt by assumption. rewrite lookup_repeat_lt by assumption.
    simpl. f_equal. lra.
  - rewrite lookup_seq_ge by lia. now rewrite lookup_ge_None_2 by (rewrite repeat_length; lia).
Qed.

End Counting.

(** ** Roots, densities and averages *)

Section Roots.
Import Py Np Spec NumbaIntro.
Local Open Scope py_scope.

Lemma root_is_root a b c :
  a <> 0%R -> (0 <= b ^ 2 - 4 * a * c)%R ->
  (a * root a b c ^ 2 + b * root a b c + c = 0)%R.
Proof.
  intros Na D. unfold root. rewrite (Rabs_pos_eq _ D).
  pose proof (sqrt_def _ D) as Hs.
  set (s := sqrt (b ^ 2 - 4 * a * c)) in *.
  replace (a * ((- b + s) / (2 * a)) ^ 2 + b * ((- b + s) / (2 * a)) + c)%R
    with ((s * s - (b ^ 2 - 4 * a * c)) / (4 * a))%R by (field; exact Na).
  rewrite Hs. unfold Rdiv. ring.
Qed.

Lemma root_positive a b c : (0 < a)%R -> (c < 0)%R -> (0 < root a b c)%R.
Proof.
  intros Pa Nc. unfold root.
  assert (D : (b ^ 2 < b ^ 2 - 4 * a * c)%R) by nra.
  assert (D0 : (0 <= b ^ 2 - 4 * a * c)%R) by nra.
  rewrite (Rabs_pos_eq _ D0).
  assert (Hb : (Rabs b < sqrt (b ^ 2 - 4 * a * c))%R).
  { rewrite <- (sqrt_Rsqr_abs b). apply sqrt_lt_1; unfold Rsqr; nra. }
  pose proof (Rle_abs b).
  apply Rdiv_lt_0_compat; lra.
Qed.

Lemma discriminant_zero_division a b c (h : heap) :
  a = 0%R -> discriminant a b c h = (Raise ZeroDivisionError, h).
Proof.
  intros ->. unfold discriminant.
  rewrite math_sqrt_ok by apply Rabs_pos. unfold lift at 1. unfold bind.
  unfold lift, truediv. destruct (decide _) as [_|N]; [reflexivity|].
  exfalso. apply N. ring.
Qed.

Lemma broadcast_mismatch op (x y : list R) :
  length x <> length y -> length x <> 1 -> length y <> 1 ->
  broadcast op x y = Raise ValueError.
Proof.
  intros N Nx Ny. unfold broadcast. destruct (decide _) as [?|_]; [contradiction|].
  destruct x as [|a [|a' x]], y as [|b [|b' y]]; simpl in *; try reflexivity; lia.
Qed.

Lemma numpy_discriminant_mismatch (h : heap) A B C va vb vc :
  h !! A = Some va -> h !! B = Some vb -> h !! C = Some vc ->
  length va <> length vc -> length va <> 1 -> length vc <> 1 ->
  numpy_discriminant A B C h = (Raise ValueError, h).
Proof.
  intros Ha Hb Hc N Na Nc. unfold numpy_discriminant.
  rewrite (bind_return _ _ _ _ _ (load_ok _ _ _ Hb)).
  rewrite (bind_return _ _ _ _ _ (load_ok _ _ _ Ha)).
  rewrite (bind_return _ _ _ _ _ (load_ok _ _ _ Hc)).
  rewrite broadcast_mismatch; [reflexivity|unfold s_op; rewrite ?length_map..]; assumption.
Qed.

Lemma unrolled_discriminant_short junk (h : heap) A B C va vb vc :
  h !! A = Some va -> h !! B = Some vb -> h !! C = Some vc ->
  length vb < length va \/ length vc < length va ->
  exists vx,
    unrolled_discriminant junk A B C h
    = (Raise IndexError, <[fresh (dom h) := vx]> h) /\ length vx = length va.
Proof.
  intros Ha Hb Hc Short. unfold unrolled_discriminant.
  destruct (alloc_fresh h (map junk (seq 0 (length va)))) as (HX & EX).
  remember (fresh (dom h)) as X eqn:EqX.
  assert (EX' : empty_like junk A h = (Return X, <[X := map junk (seq 0 (length va))]> h)).
  { unfold empty_like. now rewrite (bind_return _ _ _ _ _ (load_ok _ _ _ Ha)). }
  rewrite (bind_return _ _ _ _ _ EX').
  set (vj := map junk (seq 0 (length va))) in *.
  assert (Lj : length vj = length va) by (unfold vj; now rewrite length_map, length_seq).
  assert (NA : A <> X) by congruence.
  assert (NB : B <> X) by congruence.
  assert (NC : C <> X) by congruence.
  assert (Ha0 : <[X := vj]> h !! A = Some va) by now rewrite lookup_insert_ne.
  rewrite (bind_return _ _ _ _ _ (len_ok _ _ _ Ha0)).
  set (m := length vb `min` length vc).
  set (I := fun (_ : nat) (h1 : heap) =>
              exists cur, length cur = length va /\ h1 = <[X := cur]> h).
  assert (I0 : I 0 (<[X := vj]> h)) by now exists vj.
  match goal with |- exists _, bind (for_each _ ?b) _ _ = _ /\ _ =>
    destruct (for_each_raises I (I 0) (range (length va)) b (<[X := vj]> h)
                m (Z.of_nat m) IndexError I0) as (h' & E & cur & Lc & ->)
  end.
  - apply range_lookup. lia.
  - intros j i h1 Hj Ei (cur & Lc & ->). apply range_lookup_inv in Ei as [-> _].
    destruct (lookup_lt_is_Some_2 va j ltac:(lia)) as [a Ea].
    destruct (lookup_lt_is_Some_2 vb j ltac:(lia)) as [b Eb].
    destruct (lookup_lt_is_Some_2 vc j ltac:(lia)) as [c Ec].
    eexists. split.
    + erewrite bind_return;
        [|eapply getitem_ok; [rewrite lookup_insert_ne by congruence; exact Hb|exact Eb]].
      erewrite bind_return;
        [|eapply getitem_ok; [rewrite lookup_insert_ne by congruence; exact Ha|exact Ea]].
      erewrite bind_return;
        [|eapply getitem_ok; [rewrite lookup_insert_ne by congruence; exact Hc|exact Ec]].
      rewrite math_sqrt_ok by apply Rabs_pos. unfold lift at 1. unfold bind at 1.
      eapply setitem_ok; [apply lookup_insert_eq|lia].
    + eexists. split; [|now rewrite insert_insert_eq]. now rewrite length_insert.
  - intros h1 (cur & Lc & ->). exists (<[X := cur]> h). split; [|now exists cur].
    destruct (decide (length vb <= m)) as [Sb|Lb].
    + eapply bind_raise.
      eapply getitem_out; [rewrite lookup_insert_ne by congruence; exact Hb|exact Sb].
    + destruct (lookup_lt_is_Some_2 vb m ltac:(lia)) as [b Eb].
      destruct (lookup_lt_is_Some_2 va m ltac:(lia)) as [a Ea].
      erewrite bind_return;
        [|eapply getitem_ok; [rewrite lookup_insert_ne by congruence; exact Hb|exact Eb]].
      erewrite bind_return;
        [|eapply getitem_ok; [rewrite lookup_insert_ne by congruence; exact Ha|exact Ea]].
      eapply bind_raise.
      eapply getitem_out;
        [rewrite lookup_insert_ne by congruence; exact Hc|unfold m in *; lia].
  - exists cur. split; [|exact Lc]. now apply bind_raise.
Qed.

Lemma pdf_even x : pdf (- x) = pdf x.
Proof. unfold pdf. now replace ((- x) ^ 2)%R with (x ^ 2)%R by ring. Qed.

Lemma pdf_bounds x : (0 < pdf x <= pdf 0)%R.
Proof.
  unfold pdf. pose proof sqrt_2PI_pos as S. pose proof (exp_pos (- x ^ 2 / 2)) as E.
  split; [now apply Rdiv_lt_0_compat|].
  apply Rmult_le_compat_r; [left; now apply Rinv_0_lt_compat|].
  replace (- 0 ^ 2 / 2)%R with 0%R by (simpl; field).
  assert (N : (- x ^ 2 / 2 <= 0)%R) by (pose proof (pow2_ge_0 x); lra).
  destruct N as [N|N]; [left; now apply exp_increasing|rewrite N; lra].
Qed.

Lemma unrolled_pdf_run junk (h : heap) x xs :
  h !! x = Some xs ->
  unrolled_pdf junk x h
  = (Return (fresh (dom h)), <[fresh (dom h) := map pdf xs]> h).
Proof.
  intros Hx. unfold unrolled_pdf.
  destruct (alloc_fresh h (map junk (seq 0 (length xs)))) as (HX & EX).
  remember (fresh (dom h)) as X eqn:EqX.
  assert (EX' : empty_like junk x h = (Return X, <[X := map junk (seq 0 (length xs))]> h)).
  { unfold empty_like. now rewrite (bind_return _ _ _ _ _ (load_ok _ _ _ Hx)). }
  rewrite (bind_return _ _ _ _ _ EX').
  set (vj := map junk (seq 0 (length xs))) in *.
  assert (Lj : length vj = length xs) by (unfold vj; now rewrite length_map, length_seq).
  assert (NX : x <> X) by congruence.
  assert (Hx0 : <[X := vj]> h !! x = Some xs) by now rewrite lookup_insert_ne.
  rewrite (bind_return _ _ _ _ _ (len_ok _ _ _ Hx0)).
  match goal with |- bind (for_each _ ?b) _ _ = _ =>
    destruct (for_each_invariant
      (fun k h1 => h1 = <[X := take k (map pdf xs) ++ drop k vj]> h)
      (range (length xs)) b (<[X := vj]> h)) as (h' & E & I)
  end.
  - reflexivity.
  - intros k i h1 Ei ->. apply range_lookup_inv in Ei as [-> Hk].
    destruct (lookup_lt_is_Some_2 xs k Hk) as [v Ev].
    assert (Er : map pdf xs !! k = Some (pdf v)).
    { change (map pdf xs) with (pdf <$> xs). now rewrite list_lookup_fmap, Ev. }
    eexists. split.
    + erewrite bind_return;
        [|eapply getitem_ok; [rewrite lookup_insert_ne by congruence; exact Hx|exact Ev]].
      unfold vec_pdf. rewrite (bind_return _ _ _ _ _ (standard_normal_pdf_run v _)).
      eapply setitem_ok; [apply lookup_insert_eq|].
      rewrite length_app, length_take, length_drop, length_map. lia.
    + rewrite insert_insert_eq. f_equal.
      rewrite insert_app_r_alt; rewrite length_take, length_map; [|lia].
      replace (k - k `min` length xs) with 0 by lia.
      rewrite (take_S_r _ _ _ Er), <- app_assoc. f_equal.
      destruct (lookup_lt_is_Some_2 vj k ltac:(lia)) as [j Ej].
      rewrite (drop_S vj j k Ej). reflexivity.
  - rewrite (bind_return _ _ _ _ _ E). unfold ret. f_equal. rewrite I.
    rewrite length_range.
    rewrite take_ge by (rewrite length_map; lia). rewrite drop_ge by lia.
    now rewrite app_nil_r.
Qed.

Lemma total_bounds lo hi xs :
  Forall (fun x => (lo <= x <= hi)%R) xs ->
  (INR (length xs) * lo <= total xs <= INR (length xs) * hi)%R.
Proof.
  induction 1 as [|x xs Hx F IH]; unfold total in *; simpl length; simpl foldr.
  - simpl. lra.
  - rewrite S_INR. lra.
Qed.

End Roots.

(** ** Adding points *)

Section Points.
Import NumbaIntro Laws.

Lemma same_shape_sym a b : same_shape a b -> same_shape b a.
Proof.
  revert b. induction a as [z|x|s|x IHx y IHy]; intros [z'|x'|s'|x' y']; simpl;
    try tauto.
  intros [Sx Sy]. split; [now apply IHx|now apply IHy].
Qed.

Lemma binary_add_shape a b :
  same_shape a b -> exists c, binary_add a b = inr c /\ same_shape a c.
Proof.
  revert b. induction a as [z|x|s|x IHx y IHy]; intros [z'|x'|s'|x' y']; simpl;
    try tauto.
  - intros _. eexists. split; [reflexivity|exact I].
  - intros [Sx Sy].
    destruct (IHx x' Sx) as (cx & Ex & Cx). destruct (IHy y' Sy) as (cy & Ey & Cy).
    rewrite Ex, Ey. eexists. split; [reflexivity|]. now split.
Qed.

Lemma binary_add_comm a b : same_shape a b -> binary_add a b = binary_add b a.
Proof.
  revert b. induction a as [z|x|s|x IHx y IHy]; intros [z'|x'|s'|x' y']; simpl;
    try tauto.
  - intros _. now rewrite Z.add_comm.
  - intros [Sx Sy]. now rewrite (IHx x' Sx), (IHy y' Sy).
Qed.

Lemma binary_add_assoc a b c ab bc :
  same_shape a b -> same_shape b c ->
  binary_add a b = inr ab -> binary_add b c = inr bc ->
  binary_add ab c = binary_add a bc.
Proof.
  revert b c ab bc.
  induction a as [z|x|s|x IHx y IHy]; intros [z1|x1|s1|x1 y1] [z2|x2|s2|x2 y2] ab bc;
    simpl; try tauto.
  - intros _ _ [= <-] [= <-]. simpl. now rewrite Z.add_assoc.
  - intros [Sx Sy] [Tx Ty].
    destruct (binary_add x x1) as [e|abx] eqn:Ex; [discriminate|].
    destruct (binary_add y y1) as [e|aby] eqn:Ey; [discriminate|].
    destruct (binary_add x1 x2) as [e|bcx] eqn:Fx; [discriminate|].
    destruct (binary_add y1 y2) as [e|bcy] eqn:Fy; [discriminate|].
    intros [= <-] [= <-]. simpl.
    now rewrite (IHx x1 x2 abx bcx Sx Tx Ex Fx), (IHy y1 y2 aby bcy Sy Ty Ey Fy).
Qed.

End Points.

(** ** The loops over compiled kernels *)

Section CompiledLoops.
Import Py Np Spec Laws NumbaBlond.
Local Open Scope py_scope.

Lemma for_each_ext {A} (xs : list A) (f g : A -> M unit) h :
  (forall x h1, f x h1 = g x h1) -> for_each xs f h = for_each xs g h.
Proof.
  intros E. unfold for_each. generalize tt. revert h.
  induction xs as [|x xs IH]; intros h u; simpl; [reflexivity|].
  unfold bind. rewrite E. destruct (g x h) as [[u'|e] h1]; [apply IH|reflexivity].
Qed.

Variables (dt dE profile : loc) (cut_left cut_right : R) (voltage omega phi : loc).
Variables (acc_kick T0 length_ratio beta energy alpha_zero alpha_one alpha_two : R).
Variables (h : heap) (vt vE vp vs ws ps : list R).

Hypothesis Ht : h !! dt = Some vt.
Hypothesis HE : h !! dE = Some vE.
Hypothesis Hp : h !! profile = Some vp.
Hypothesis Hv : h !! voltage = Some vs.
Hypothesis Hw : h !! omega = Some ws.
Hypothesis Hph : h !! phi = Some ps.
Hypothesis Hdistinct : NoDup [dt; dE; profile].
Hypothesis Hvoltage : voltage ∉ [dt; dE; profile].
Hypothesis Homega : omega ∉ [dt; dE; profile].
Hypothesis Hphi : phi ∉ [dt; dE; profile].
Hypothesis Hlen : length vt = length vE.
Hypothesis Hlw : length vs <= length ws.
Hypothesis Hlp : length vs <= length ps.
Hypothesis Hcuts : cut_left <> cut_right.
Hypothesis Hbeta : beta <> 0%R.
Hypothesis Henergy : energy <> 0%R.

Abbreviation a_turn :=
  (turn (stations vs ws ps) acc_kick T0 length_ratio beta energy
        alpha_zero alpha_one alpha_two).
Abbreviation beam_at n := (Nat.iter n a_turn (vt, vE)).
Abbreviation histogram_of ts :=
  (map (fun b => INR (bin_count (length vp) cut_left cut_right ts b))
       (seq 0 (length vp))).
Abbreviation profile_at n :=
  (match n with
   | O => vp
   | S m => histogram_of (Nat.iter (S m) a_turn (vt, vE)).1
   end).

Lemma counting_turns_run n :
  times n
    (kick_numpy dt dE voltage omega phi acc_kick ;;;
     drift_numpy dt dE T0 length_ratio beta energy alpha_zero alpha_one alpha_two ;;;
     inplace_s Rmult profile 0 ;;;
     histo_unrolled dt profile cut_left cut_right) h
  = (Return tt,
     with_beam h dt dE profile (beam_at n).1 (beam_at n).2 (profile_at n)).
Proof.
  destruct (distinct_facts dt dE profile voltage omega phi Hdistinct Hvoltage Homega Hphi)
    as (D1 & D2 & D3 & V1 & V2 & V3 & W1 & W2 & W3 & P1 & P2 & P3).
  induction n as [|n IH].
  - unfold with_beam. simpl.
    now rewrite (insert_id h dE vE HE), (insert_id h dt vt Ht), (insert_id h profile vp Hp).
  - rewrite times_S_r. rewrite (bind_return _ _ _ _ _ IH). clear IH.
    destruct (turns_lengths acc_kick T0 length_ratio beta energy
                alpha_zero alpha_one alpha_two vt vE vs ws ps Hlen Hlw Hlp n) as [L1 L2].
    set (s := beam_at n) in *.
    set (p := profile_at n).
    set (hn := with_beam h dt dE profile s.1 s.2 p).
    assert (Lp : length p = length vp).
    { unfold p. destruct n; [reflexivity|now rewrite length_map, length_seq]. }
    assert (At : hn !! dt = Some s.1).
    { unfold hn, with_beam. rewrite lookup_insert_ne by congruence. apply lookup_insert_eq. }
    assert (AE : hn !! dE = Some s.2).
    { unfold hn, with_beam. rewrite !lookup_insert_ne by congruence. apply lookup_insert_eq. }
    assert (Ap : hn !! profile = Some p).
    { unfold hn, with_beam. apply lookup_insert_eq. }
    assert (Av : hn !! voltage = Some vs).
    { unfold hn, with_beam. now rewrite !lookup_insert_ne by congruence. }
    assert (Aw : hn !! omega = Some ws).
    { unfold hn, with_beam. now rewrite !lookup_insert_ne by congruence. }
    assert (Aph : hn !! phi = Some ps).
    { unfold hn, with_beam. now rewrite !lookup_insert_ne by congruence. }
    erewrite bind_return;
      [|eapply blond_kick_numpy_run; eauto; congruence].
    erewrite bind_return;
      [|eapply drift_numpy_run;
        [rewrite lookup_insert_ne by congruence; exact At
        |apply lookup_insert_eq
        |rewrite length_zip_with; lia
        |assumption..]].
    erewrite reset_then_histogram;
      [|apply lookup_insert_eq
       |rewrite !lookup_insert_ne by congruence; exact Ap
       |congruence
       |assumption].
    f_equal. rewrite Lp.
    unfold hn, with_beam. apply map_eq. intros l.
    change (beam_at (S n)) with (a_turn s).
    rewrite !lookup_insert. unfold turn. simpl.
    repeat case_decide; congruence.
Qed.

End CompiledLoops.

Section MorePoints.
Import NumbaIntro Laws.

Lemma same_shape_trans a b c : same_shape a b -> same_shape b c -> same_shape a c.
Proof.
  revert b c.
  induction a as [z|x|s|x IHx y IHy]; intros [z1|x1|s1|x1 y1] [z2|x2|s2|x2 y2];
    simpl; try tauto.
  intros [Sx Sy] [Tx Ty]. split; [now apply (IHx x1)|now apply (IHy y1)].
Qed.

End MorePoints.

Section Averages.
Import Py Spec.

Lemma mean_bounds lo hi xs :
  xs <> [] -> Forall (fun x => (lo <= x <= hi)%R) xs ->
  (lo <= total xs / INR (length xs) <= hi)%R.
Proof.
  intros N F. pose proof (total_bounds lo hi xs F) as [B1 B2].
  assert (P : (0 < INR (length xs))%R).
  { destruct xs as [|x xs]; [congruence|]. simpl length. rewrite S_INR.
    pose proof (pos_INR (length xs)). lra. }
  split.
  - apply Rmult_le_reg_r with (INR (length xs)); [exact P|].
    unfold Rdiv. rewrite Rmult_assoc, Rinv_l by lra. lra.
  - apply Rmult_le_reg_r with (INR (length xs)); [exact P|].
    unfold Rdiv. rewrite Rmult_assoc, Rinv_l by lra. lra.
Qed.

End Averages.

Section CompiledFrames.
Import Py Np Spec NumbaBlond.
Local Open Scope py_scope.

Variable kick_kernel : loc -> loc -> loc -> loc -> loc -> R -> M unit.
Variable drift_kernel : loc -> loc -> R -> R -> R -> R -> R -> R -> R -> M unit.
Variable histo_kernel : loc -> loc -> R -> R -> M unit.

Lemma compiled_iteration_writes dt dE profile cl cr voltage omega phi k T0 lr beta energy a0 a1 a2 :
  writes_within (eq dE) (kick_kernel dt dE voltage omega phi k) ->
  writes_within (eq dt) (drift_kernel dt dE T0 lr beta energy a0 a1 a2) ->
  writes_within (eq profile) (histo_kernel dt profile cl cr) ->
  writes_within (fun l => l = dE \/ l = dt \/ l = profile)
    (kick_kernel dt dE voltage omega phi k ;;;
     drift_kernel dt dE T0 lr beta energy a0 a1 a2 ;;;
     inplace_s Rmult profile 0 ;;;
     histo_kernel dt profile cl cr).
Proof.
  intros Wk Wd Wh.
  apply writes_bind; [eapply writes_weaken; [|exact Wk]; intros l <-; tauto|intros _].
  apply writes_bind; [eapply writes_weaken; [|exact Wd]; intros l <-; tauto|intros _].
  apply writes_bind;
    [eapply writes_weaken; [|apply writes_inplace_s]; intros l <-; tauto|intros _].
  eapply writes_weaken; [|exact Wh]. intros l <-; tauto.
Qed.

End CompiledFrames.

(** ** The properties of the notebooks *)

Import Py.
Local Open Scope py_scope.

(** C1, what the code does on one particle: with [dt = [0.0]],
    [profile = [0.0]] and the cuts 0 and 1, [histo_numpy] returns and
    leaves the heap as it was, so the profile is still [[0.0]], while
    [histo_unrolled] returns and leaves the profile [[1.0]].  The two
    variants do not leave the profile in the same state. *)
Theorem histo_numpy_unrolled_differ :
  NumbaBlond.histo_numpy 1 2 0 1 Sample.one_particle
    = (Return tt, Sample.one_particle) /\
  Sample.one_particle !! 2%positive = Some [0%R] /\
  NumbaBlond.histo_unrolled 1 2 0 1 Sample.one_particle
    = (Return tt, <[2%positive := [1%R]]> Sample.one_particle).
Proof.
  split; [|split].
  - apply histo_numpy_run with [0%R] [0%R]; [reflexivity|reflexivity|discriminate|lra].
  - reflexivity.
  - rewrite (histo_unrolled_run Sample.one_particle 1 2 [0%R] [0%R] 0 1);
      [|reflexivity|reflexivity|discriminate|lra].
    do 3 f_equal. unfold Spec.counted, Spec.bin_count. simpl.
    assert (Hb : Spec.bin_of 1 0 1 0 = 0%Z).
    { unfold Spec.bin_of. apply Zfloor_eq.
      unfold Rdiv. rewrite Rminus_diag, !Rmult_0_l. lra. }
    rewrite filter_cons, filter_nil, Hb. simpl. f_equal. lra.
Qed.







(** C5: with [A], [B] and [C] arrays of one length and no zero in [A],
    [unrolled_discriminant] and [numpy_discriminant] return a new array,
    and [discriminant] applied to the elements one index after the other
    gives the same values; element [i] is
    [(-B[i] + sqrt(|B[i]^2 - 4*A[i]*C[i]|)) / (2*A[i])].  The arrays the
    heap held are as they were: only the new array is added. *)
Theorem discriminant_variants_agree (junk : nat -> R) (h : heap) (A B C : loc)
    (va vb vc : list R) :
  h !! A = Some va -> h !! B = Some vb -> h !! C = Some vc ->
  length va = length vb -> length va = length vc ->
  Forall (fun a => a <> 0%R) va ->
  exists (X : loc) (vx : list R),
    h !! X = None /\
    NumbaIntro.unrolled_discriminant junk A B C h = (Return X, <[X := vx]> h) /\
    NumbaIntro.numpy_discriminant A B C h = (Return X, <[X := vx]> h) /\
    Spec.elementwise3 NumbaIntro.discriminant va vb vc h = (Return vx, h) /\
    length vx = length va /\
    forall i a b c, va !! i = Some a -> vb !! i = Some b -> vc !! i = Some c ->
      vx !! i = Some ((- b + sqrt (Rabs (b ^ 2 - 4 * a * c))) / (2 * a))%R.
Proof.
  intros Ha Hb Hc Lb Lc Nz.
  exists (fresh (dom h)), (Spec.roots va vb vc). repeat split.
  - apply (alloc_fresh h []).
  - now apply unrolled_discriminant_run.
  - now apply numpy_discriminant_run.
  - now apply elementwise3_discriminant.
  - now apply length_roots.
  - intros i a b c Ea Eb Ec. now apply roots_lookup.
Qed.

Lemma discriminant_variants_agree_witness :
  (Sample.polynomials !! 1%positive = Some [1; 2]%R /\
   Sample.polynomials !! 2%positive = Some [0; 1]%R /\
   Sample.polynomials !! 3%positive = Some [-1; -3]%R /\
   length [1; 2]%R = length [0; 1]%R /\
   length [1; 2]%R = length [-1; -3]%R /\
   Forall (fun a => a <> 0%R) [1; 2]%R) /\
  exists (X : loc) (vx : list R),
    Sample.polynomials !! X = None /\
    NumbaIntro.unrolled_discriminant (fun _ => 0%R) 1 2 3 Sample.polynomials
      = (Return X, <[X := vx]> Sample.polynomials) /\
    NumbaIntro.numpy_discriminant 1 2 3 Sample.polynomials
      = (Return X, <[X := vx]> Sample.polynomials) /\
    Spec.elementwise3 NumbaIntro.discriminant [1; 2]%R [0; 1]%R [-1; -3]%R
      Sample.polynomials = (Return vx, Sample.polynomials) /\
    length vx = length [1; 2]%R /\
    forall i a b c, [1; 2]%R !! i = Some a -> [0; 1]%R !! i = Some b ->
      [-1; -3]%R !! i = Some c ->
      vx !! i = Some ((- b + sqrt (Rabs (b ^ 2 - 4 * a * c))) / (2 * a))%R.
Proof.
  assert (Nz : Forall (fun a => a <> 0%R) [1; 2]%R).
  { repeat constructor; lra. }
  split; [repeat split; exact Nz|].
  apply (discriminant_variants_agree (fun _ => 0%R) Sample.polynomials 1 2 3
           [1; 2]%R [0; 1]%R [-1; -3]%R); try reflexivity.
  exact Nz.
Defined.



(** C7: [get_access] answers ['Access Granted!'] when its argument equals
    the value [secure_pass] holds when it is called, and
    ['Access Denied!'] otherwise; after [secure_pass] is assigned, it is the
    new value that counts. *)
Theorem get_access_current (g : NumbaIntro.globals) (input_pass new_pass : string) :
  (input_pass = NumbaIntro.secure_pass g ->
   NumbaIntro.get_access input_pass g = "Access Granted!"%string) /\
  (input_pass <> NumbaIntro.secure_pass g ->
   NumbaIntro.get_access input_pass g = "Access Denied!"%string) /\
  (input_pass = new_pass ->
   NumbaIntro.get_access input_pass (NumbaIntro.assign_secure_pass new_pass g)
   = "Access Granted!"%string) /\
  (input_pass <> new_pass ->
   NumbaIntro.get_access input_pass (NumbaIntro.assign_secure_pass new_pass g)
   = "Access Denied!"%string).
Proof.
  unfold NumbaIntro.get_access, NumbaIntro.assign_secure_pass. simpl.
  repeat split; intros E.
  - subst. now rewrite String.eqb_refl.
  - destruct (String.eqb_spec (NumbaIntro.secure_pass g) input_pass); congruence.
  - subst. now rewrite String.eqb_refl.
  - destruct (String.eqb_spec new_pass input_pass); congruence.
Qed.

Lemma get_access_current_witness :
  NumbaIntro.get_access "5678" {| NumbaIntro.secure_pass := "1234" |}
    = "Access Denied!"%string /\
  NumbaIntro.get_access "5678"
    (NumbaIntro.assign_secure_pass "5678" {| NumbaIntro.secure_pass := "1234" |})
    = "Access Granted!"%string.
Proof.
  pose proof (get_access_current {| NumbaIntro.secure_pass := "1234" |} "5678" "5678")
    as (_ & Denied & Granted & _).
  split; [apply Denied; discriminate | apply Granted; reflexivity].
Defined.



(** C9: whatever the heap and the arguments, and however the call ends,
    [kick_numpy] of notebook 03 leaves every array other than [dE] as it
    was, so [dt], [voltage], [omega] and [phi] when they are other arrays
    than [dE]; [drift_numpy] leaves every array other than [dt] as it was.
    The scalar arguments are values; a call cannot change them. *)
Theorem kick_drift_frame (h : heap) (dt dE voltage omega phi : loc)
    (acc_kick T0 length_ratio beta energy alpha_zero alpha_one alpha_two : R)
    (l : loc) :
  (l <> dE ->
   (NumbaBlond.kick_numpy dt dE voltage omega phi acc_kick h).2 !! l = h !! l) /\
  (l <> dt ->
   (NumbaBlond.drift_numpy dt dE T0 length_ratio beta energy
      alpha_zero alpha_one alpha_two h).2 !! l = h !! l).
Proof.
  split; intros N.
  - apply kick_numpy_writes. congruence.
  - apply drift_numpy_writes. congruence.
Qed.

Lemma kick_drift_frame_witness :
  (1%positive <> 2%positive ->
   (NumbaBlond.kick_numpy 1 2 4 5 6 1 Sample.beam).2 !! 1%positive
   = Sample.beam !! 1%positive) /\
  (2%positive <> 1%positive ->
   (NumbaBlond.drift_numpy 1 2 1 1 1 1 0 0 0 Sample.beam).2 !! 2%positive
   = Sample.beam !! 2%positive).
Proof.
  split; intros N.
  - apply (kick_drift_frame Sample.beam 1 2 4 5 6 1 1 1 1 1 0 0 0 1). exact N.
  - apply (kick_drift_frame Sample.beam 1 2 4 5 6 1 1 1 1 1 0 0 0 2). exact N.
Defined.

(** C10: on an array [arr], [average_unrolled] leaves the heap as it was;
    it raises [ZeroDivisionError] exactly when the array is empty, and on
    an array that is not empty it returns the sum of the elements divided
    by their number. *)
Theorem average_unrolled_mean (h : heap) (arr : loc) (xs : list R) :
  h !! arr = Some xs ->
  (NumbaIntro.average_unrolled arr h).2 = h /\
  ((NumbaIntro.average_unrolled arr h).1 = Raise ZeroDivisionError <-> xs = []) /\
  (xs <> [] ->
   (NumbaIntro.average_unrolled arr h).1
   = Return (Spec.total xs / INR (length xs))%R).
Proof.
  intros E. rewrite (average_unrolled_run h arr xs E). simpl.
  split; [reflexivity|]. unfold truediv.
  destruct (decide (INR (length xs) = 0%R)) as [Z|N].
  - assert (xs = []) as ->.
    { destruct xs as [|x xs]; [reflexivity|]. exfalso.
      simpl length in Z. rewrite S_INR in Z. pose proof (pos_INR (length xs)). lra. }
    split; [tauto|congruence].
  - split; [|reflexivity]. split; [discriminate|].
    intros ->. exfalso. apply N. reflexivity.
Qed.

Lemma average_unrolled_mean_witness :
  Sample.two_particles !! 1%positive = Some [0; 5]%R /\
  (NumbaIntro.average_unrolled 1 Sample.two_particles).2 = Sample.two_particles /\
  (NumbaIntro.average_unrolled 1 Sample.two_particles).1
  = Return (Spec.total [0; 5]%R / INR (length [0; 5]%R))%R.
Proof.
  destruct (average_unrolled_mean Sample.two_particles 1 [0; 5]%R eq_refl)
    as (Frame & _ & Mean).
  split; [reflexivity|]. split; [exact Frame|]. apply Mean. discriminate.
Defined.

(** ** Further properties of the notebooks *)



(** X2: when [dt] and [dE] differ in length and [dt] has not exactly one
    element, [kick_numpy] of notebook 02 raises [ValueError] and leaves the
    heap as it was. *)
Theorem kick_numpy_shape_error (h : heap) (dt dE : loc) (vt vE : list R)
    (voltage omega phi acc_kick : R) :
  h !! dt = Some vt -> h !! dE = Some vE ->
  length vt <> length vE -> length vt <> 1 ->
  NumbaIntro.kick_numpy dt dE voltage omega phi acc_kick h = (Raise ValueError, h).
Proof. intros. now apply kick_numpy_mismatch with vt vE. Qed.

Lemma kick_numpy_shape_error_witness :
  (Sample.beam !! 1%positive = Some [0; 5]%R /\
   Sample.beam !! 4%positive = Some [6]%R /\
   length [0; 5]%R <> length [6]%R /\ length [0; 5]%R <> 1) /\
  NumbaIntro.kick_numpy 1 4 3 4 0 1 Sample.beam = (Raise ValueError, Sample.beam).
Proof.
  split; [repeat split; discriminate|].
  apply (kick_numpy_shape_error Sample.beam 1 4 [0; 5]%R [6]%R);
    first [reflexivity | discriminate].
Defined.



(** X4: [kick_numpy] of notebook 02, [drift_numpy], [numpy_pdf] and
    [numpy_discriminant] change the heap only when they return: a call
    that raises leaves every array as it was. *)
Theorem vectorised_all_or_nothing (dt dE A B C : loc)
    (voltage omega phi acc_kick T0 length_ratio beta energy
     alpha_zero alpha_one alpha_two : R) :
  Laws.all_or_nothing (NumbaIntro.kick_numpy dt dE voltage omega phi acc_kick) /\
  Laws.all_or_nothing
    (NumbaBlond.drift_numpy dt dE T0 length_ratio beta energy
       alpha_zero alpha_one alpha_two) /\
  Laws.all_or_nothing (NumbaIntro.numpy_pdf A) /\
  Laws.all_or_nothing (NumbaIntro.numpy_discriminant A B C).
Proof.
  split; [|split; [|split]].
  - apply intro_kick_numpy_aon.
  - apply drift_numpy_aon.
  - apply numpy_pdf_aon.
  - apply numpy_discriminant_aon.
Qed.

Lemma vectorised_all_or_nothing_witness :
  (NumbaIntro.kick_numpy 1 2 3 4 0 1 Sample.ragged).1 = Raise ValueError /\
  (NumbaIntro.kick_numpy 1 2 3 4 0 1 Sample.ragged).2 = Sample.ragged.
Proof.
  assert (E1 : (NumbaIntro.kick_numpy 1 2 3 4 0 1 Sample.ragged).1 = Raise ValueError).
  { rewrite (kick_numpy_mismatch 3 4 0 1 Sample.ragged 1 2 [1; 2; 3]%R [4; 5]%R);
      first [reflexivity | discriminate]. }
  split; [exact E1|].
  apply (proj1 (vectorised_all_or_nothing 1 2 1 2 3 3 4 0 1 1 1 1 1 0 0 0))
    with ValueError.
  destruct (NumbaIntro.kick_numpy 1 2 3 4 0 1 Sample.ragged) as [o h']. simpl in *.
  now rewrite E1.
Defined.







(** X8: when [omega] or [phi] has fewer elements than [voltage],
    [kick_numpy] of notebook 03 raises [IndexError]; only [dE] may have
    changed by then, and it keeps its length. *)
Theorem kick_missing_station (h : heap) (dt dE voltage omega phi : loc)
    (vt vE vs ws ps : list R) (acc_kick : R) :
  h !! dt = Some vt -> h !! dE = Some vE ->
  h !! voltage = Some vs -> h !! omega = Some ws -> h !! phi = Some ps ->
  dt <> dE -> voltage <> dE -> omega <> dE -> phi <> dE ->
  length vt = length vE ->
  length ws < length vs \/ length ps < length vs ->
  exists vE' : list R,
    NumbaBlond.kick_numpy dt dE voltage omega phi acc_kick h
    = (Raise IndexError, <[dE := vE']> h) /\
    length vE' = length vE.
Proof. intros. now apply missing_station with vt vs ws ps. Qed.

Lemma kick_missing_station_witness :
  (3%positive <> 2%positive /\ 1%positive <> 2%positive /\ 5%positive <> 2%positive /\
   (length [2%R] < length [0; 5]%R \/ length [4; 9]%R < length [0; 5]%R)) /\
  exists vE' : list R,
    NumbaBlond.kick_numpy 3 2 1 5 3 1 Sample.beam
    = (Raise IndexError, <[2%positive := vE']> Sample.beam) /\
    length vE' = length [7; 8]%R.
Proof.
  split; [repeat split; first [discriminate | left; simpl; lia]|].
  apply (kick_missing_station Sample.beam 3 2 1 5 3 [4; 9]%R [7; 8]%R [0; 5]%R
           [2%R] [4; 9]%R 1);
    first [reflexivity | discriminate | left; simpl; lia].
Defined.





(** X11: however they end, [kick_unrolled] and [kick_numpy] of notebook 02
    store only into [dE], [histo_unrolled] only into [profile], and
    [loop_numpy] only into [dE], [dt] and [profile]; none of them changes
    the length of any array. *)
Theorem stores_of_the_kernels (dt dE profile voltage omega phi : loc)
    (v w p cut_left cut_right acc_kick T0 length_ratio beta energy
     alpha_zero alpha_one alpha_two : R) :
  Spec.writes_within (eq dE) (NumbaIntro.kick_unrolled dt dE v w p acc_kick) /\
  Spec.writes_within (eq dE) (NumbaIntro.kick_numpy dt dE v w p acc_kick) /\
  Spec.writes_within (eq profile)
    (NumbaBlond.histo_unrolled dt profile cut_left cut_right) /\
  Spec.writes_within (fun l => l = dE \/ l = dt \/ l = profile)
    (NumbaBlond.loop_numpy dt dE profile cut_left cut_right voltage omega phi
       acc_kick T0 length_ratio beta energy alpha_zero alpha_one alpha_two).
Proof.
  split; [|split; [|split]].
  - apply kick_unrolled_writes.
  - apply intro_kick_numpy_writes.
  - apply histo_unrolled_stores.
  - apply loop_numpy_stores.
Qed.

Lemma stores_of_the_kernels_witness :
  (NumbaBlond.histo_unrolled 1 3 0 1 Sample.beam).2 !! 1%positive
  = Sample.beam !! 1%positive /\
  (NumbaBlond.loop_numpy 1 2 3 0 1 4 5 6 1 1 1 1 1 0 0 0 Sample.beam).2 !! 4%positive
  = Sample.beam !! 4%positive.
Proof.
  destruct (stores_of_the_kernels 1 2 3 4 5 6 1 1 1 0 1 1 1 1 1 1 0 0 0)
    as (_ & _ & Histo & Loop).
  split.
  - apply (Histo Sample.beam 1%positive). discriminate.
  - apply (Loop Sample.beam 4%positive). intros [N|[N|N]]; discriminate.
Defined.





(** X14: when [B] or [C] has fewer elements than [A],
    [unrolled_discriminant] raises [IndexError]; the arrays the heap held
    are as they were, beside them there is the new array, of the length of
    [A]. *)
Theorem unrolled_discriminant_short_input (junk : nat -> R) (h : heap)
    (A B C : loc) (va vb vc : list R) :
  h !! A = Some va -> h !! B = Some vb -> h !! C = Some vc ->
  length vb < length va \/ length vc < length va ->
  exists (X : loc) (vx : list R),
    h !! X = None /\
    NumbaIntro.unrolled_discriminant junk A B C h
    = (Raise IndexError, <[X := vx]> h) /\
    length vx = length va.
Proof.
  intros Ha Hb Hc Short.
  destruct (unrolled_discriminant_short junk h A B C va vb vc Ha Hb Hc Short)
    as (vx & E & L).
  exists (fresh (dom h)), vx. split; [apply (alloc_fresh h [])|]. now split.
Qed.

Lemma unrolled_discriminant_short_input_witness :
  (length [4; 5]%R < length [1; 2; 3]%R \/ length [6]%R < length [1; 2; 3]%R) /\
  exists (X : loc) (vx : list R),
    Sample.ragged !! X = None /\
    NumbaIntro.unrolled_discriminant (fun _ => 0%R) 1 2 3 Sample.ragged
    = (Raise IndexError, <[X := vx]> Sample.ragged) /\
    length vx = length [1; 2; 3]%R.
Proof.
  split; [left; simpl; lia|].
  apply (unrolled_discriminant_short_input (fun _ => 0%R) Sample.ragged 1 2 3
           [1; 2; 3]%R [4; 5]%R [6]%R);
    first [reflexivity | left; simpl; lia].
Defined.

(** X15: when [A] and [C] differ in length and neither has exactly one
    element, [numpy_discriminant] raises [ValueError] and leaves the heap
    as it was. *)
Theorem numpy_discriminant_shape_error (h : heap) (A B C : loc)
    (va vb vc : list R) :
  h !! A = Some va -> h !! B = Some vb -> h !! C = Some vc ->
  length va <> length vc -> length va <> 1 -> length vc <> 1 ->
  NumbaIntro.numpy_discriminant A B C h = (Raise ValueError, h).
Proof. intros. now apply (numpy_discriminant_mismatch h A B C va vb vc). Qed.

Lemma numpy_discriminant_shape_error_witness :
  (length [1; 2; 3]%R <> length [4; 5]%R /\ length [1; 2; 3]%R <> 1 /\
   length [4; 5]%R <> 1) /\
  NumbaIntro.numpy_discriminant 1 3 2 Sample.ragged = (Raise ValueError, Sample.ragged).
Proof.
  split; [repeat split; discriminate|].
  apply (numpy_discriminant_shape_error Sample.ragged 1 3 2 [1; 2; 3]%R [6]%R [4; 5]%R);
    first [reflexivity | discriminate].
Defined.


(** X17: on an array, [unrolled_pdf] ends as [numpy_pdf] does: it returns
    a new array with the density of every element, whatever [empty_like]
    left in the new array, and leaves the arrays the heap held as they
    were. *)
Theorem unrolled_pdf_agrees (junk : nat -> R) (h : heap) (x : loc) (xs : list R) :
  h !! x = Some xs ->
  NumbaIntro.unrolled_pdf junk x h = NumbaIntro.numpy_pdf x h /\
  exists out : loc,
    h !! out = None /\
    NumbaIntro.unrolled_pdf junk x h
    = (Return out, <[out := map Spec.pdf xs]> h).
Proof.
  intros Hx. rewrite (unrolled_pdf_run junk h x xs Hx), (numpy_pdf_run h x xs Hx).
  split; [reflexivity|]. exists (fresh (dom h)).
  split; [apply (alloc_fresh h [])|reflexivity].
Qed.

Lemma unrolled_pdf_agrees_witness :
  NumbaIntro.unrolled_pdf (fun _ => 7%R) 1 Sample.ragged
  = NumbaIntro.numpy_pdf 1 Sample.ragged.
Proof.
  apply (unrolled_pdf_agrees (fun _ => 7%R) Sample.ragged 1 [1; 2; 3]%R).
  reflexivity.
Defined.



(** X19: on values of one shape, built from integers and instances of
    [Point] only, [add] raises nothing and returns a value of that shape;
    it is commutative and associative. *)
Theorem add_points_laws (a b c : NumbaIntro.value) :
  Laws.same_shape a b -> Laws.same_shape b c ->
  exists ab bc abc : NumbaIntro.value,
    NumbaIntro.add a b = inr ab /\ NumbaIntro.add b a = inr ab /\
    NumbaIntro.add b c = inr bc /\
    NumbaIntro.add ab c = inr abc /\ NumbaIntro.add a bc = inr abc /\
    Laws.same_shape a ab /\ Laws.same_shape a abc.
Proof.
  intros Sab Sbc. unfold NumbaIntro.add.
  destruct (binary_add_shape a b Sab) as (ab & Eab & Cab).
  destruct (binary_add_shape b c Sbc) as (bc & Ebc & Cbc).
  assert (Sabc : Laws.same_shape ab c).
  { apply same_shape_trans with a; [now apply same_shape_sym|].
    now apply same_shape_trans with b. }
  destruct (binary_add_shape ab c Sabc) as (abc & Eabc & Cabc).
  exists ab, bc, abc. rewrite <- (binary_add_comm a b Sab).
  rewrite <- (binary_add_assoc a b c ab bc Sab Sbc Eab Ebc).
  repeat split; try assumption. now apply same_shape_trans with ab.
Qed.

Lemma add_points_laws_witness :
  exists ab bc abc : NumbaIntro.value,
    NumbaIntro.add (NumbaIntro.Point (NumbaIntro.Int 1) (NumbaIntro.Int 2))
                   (NumbaIntro.Point (NumbaIntro.Int 3) (NumbaIntro.Int 4)) = inr ab /\
    NumbaIntro.add (NumbaIntro.Point (NumbaIntro.Int 3) (NumbaIntro.Int 4))
                   (NumbaIntro.Point (NumbaIntro.Int 1) (NumbaIntro.Int 2)) = inr ab /\
    NumbaIntro.add (NumbaIntro.Point (NumbaIntro.Int 3) (NumbaIntro.Int 4))
                   (NumbaIntro.Point_init None None) = inr bc /\
    NumbaIntro.add ab (NumbaIntro.Point_init None None) = inr abc /\
    NumbaIntro.add (NumbaIntro.Point (NumbaIntro.Int 1) (NumbaIntro.Int 2)) bc = inr abc /\
    Laws.same_shape (NumbaIntro.Point (NumbaIntro.Int 1) (NumbaIntro.Int 2)) ab /\
    Laws.same_shape (NumbaIntro.Point (NumbaIntro.Int 1) (NumbaIntro.Int 2)) abc.
Proof.
  apply (add_points_laws (NumbaIntro.Point (NumbaIntro.Int 1) (NumbaIntro.Int 2))
           (NumbaIntro.Point (NumbaIntro.Int 3) (NumbaIntro.Int 4))
           (NumbaIntro.Point_init None None)); simpl; tauto.
Defined.



(** X21: whatever the compiled kernels are, when the kick stores only into
    [dE], the drift only into [dt] and the histogram only into [profile],
    [loop_jit] and [loop_jit_parallel] store only into [dE], [dt] and
    [profile], however they end, and change the length of no array. *)
Theorem loop_jit_stores
    (kick_kernel : loc -> loc -> loc -> loc -> loc -> R -> M unit)
    (drift_kernel : loc -> loc -> R -> R -> R -> R -> R -> R -> R -> M unit)
    (histo_kernel : loc -> loc -> R -> R -> M unit)
    (dt dE profile : loc) (cut_left cut_right : R) (voltage omega phi : loc)
    (acc_kick T0 length_ratio beta energy alpha_zero alpha_one alpha_two : R) :
  Spec.writes_within (eq dE) (kick_kernel dt dE voltage omega phi acc_kick) ->
  Spec.writes_within (eq dt)
    (drift_kernel dt dE T0 length_ratio beta energy alpha_zero alpha_one alpha_two) ->
  Spec.writes_within (eq profile) (histo_kernel dt profile cut_left cut_right) ->
  Spec.writes_within (fun l => l = dE \/ l = dt \/ l = profile)
    (NumbaBlond.loop_jit kick_kernel drift_kernel histo_kernel
       dt dE profile cut_left cut_right voltage omega phi
       acc_kick T0 length_ratio beta energy alpha_zero alpha_one alpha_two) /\
  Spec.writes_within (fun l => l = dE \/ l = dt \/ l = profile)
    (NumbaBlond.loop_jit_parallel kick_kernel drift_kernel histo_kernel
       dt dE profile cut_left cut_right voltage omega phi
       acc_kick T0 length_ratio beta energy alpha_zero alpha_one alpha_two).
Proof.
  intros Wk Wd Wh.
  split; apply writes_for_each; intros _; now apply compiled_iteration_writes.
Qed.

Lemma loop_jit_stores_witness :
  (NumbaBlond.loop_jit NumbaBlond.kick_numpy NumbaBlond.drift_numpy
     NumbaBlond.histo_numpy 1 2 3 0 1 4 5 6 1 1 1 1 1 0 0 0 Sample.beam).2
    !! 4%positive
  = Sample.beam !! 4%positive.
Proof.
  destruct (loop_jit_stores NumbaBlond.kick_numpy NumbaBlond.drift_numpy
              NumbaBlond.histo_numpy 1 2 3 0 1 4 5 6 1 1 1 1 1 0 0 0) as [W _].
  - apply kick_numpy_writes.
  - apply drift_numpy_writes.
  - eapply writes_weaken; [|apply histo_numpy_writes]. intros l [].
  - apply (W Sample.beam 4%positive). intros [E|[E|E]]; discriminate.
Defined.
